(** * VoiceAI assistant: skill dispatch, reply composition, model client

    A shallow embedding of the intent-dispatch and response-composition core
    of the assistant ([src/assistant.py]) and of the remote model client
    ([src/mistral_client.py]), followed by the properties of the
    specification that concern them.

    Python values are modelled as follows.
    - [str] is a list of Unicode code points ([pystr]); literals are written
      in UTF-8 and decoded by [u].
    - [int] is [Z]; list lengths are [nat].
    - a [dict] whose iteration order matters (the response cache, metadata)
      is an association list in insertion order with unique keys.
    - what the outside world answers during one call (clock readings, random
      draws, HTTP outcomes, the platform) is an explicit input of the call;
      what the call does to the outside world is returned as a list of
      events.
    - builtins whose tables are not part of the repository ([str.lower],
      [eval], ...) are the fields of the class [PyBuiltins]; every property
      below holds for all of its instances.
    - an exception is a result of its own ([Raised]); the launchers
      ([webbrowser.open], [os.system], [os.startfile]) and the HTTP calls
      may raise, the callbacks of the user interface are recorded as events
      and do not. Logging is left out. *)

From Stdlib Require Import Strings.String Strings.Ascii.
From Stdlib Require Import List ZArith NArith Bool Lia.
Import ListNotations.

Set Implicit Arguments.

(** ** Python strings *)

Module PyStr.

Definition pystr := list N.

(** UTF-8 decoding of a literal (well-formed input only: literals of this
    file). *)
Fixpoint utf8_decode (pending : nat) (acc : N) (bs : list N) : pystr :=
  match bs with
  | [] => []
  | b :: bs' =>
      match pending with
      | S k =>
          let acc' := (acc * 64 + b mod 64)%N in
          match k with
          | O => acc' :: utf8_decode 0 0%N bs'
          | S _ => utf8_decode k acc' bs'
          end
      | O =>
          if (b <? 128)%N then b :: utf8_decode 0 0%N bs'
          else if (b <? 224)%N then utf8_decode 1 (b mod 32)%N bs'
          else if (b <? 240)%N then utf8_decode 2 (b mod 16)%N bs'
          else utf8_decode 3 (b mod 8)%N bs'
      end
  end.

Definition u (s : string) : pystr :=
  utf8_decode 0 0%N (map N_of_ascii (list_ascii_of_string s)).

Definition str_eqb (a b : pystr) : bool :=
  if list_eq_dec N.eq_dec a b then true else false.

(** [s.startswith(p)] *)
Fixpoint starts_with (p s : pystr) : bool :=
  match p, s with
  | [], _ => true
  | _ :: _, [] => false
  | a :: p', b :: s' => (a =? b)%N && starts_with p' s'
  end.

(** [needle in hay] *)
Fixpoint str_in (needle hay : pystr) : bool :=
  starts_with needle hay ||
  match hay with
  | [] => false
  | _ :: t => str_in needle t
  end.

(** [any(word in text for word in words)] *)
Definition any_in (words : list pystr) (text : pystr) : bool :=
  existsb (fun w => str_in w text) words.

(** [c in set(chars)] *)
Definition char_in (chars : pystr) (c : N) : bool :=
  existsb (N.eqb c) chars.

(** Code points for which [str.isspace] holds; [str.strip()] removes them at
    both ends. *)
Definition py_isspace (c : N) : bool :=
  ((9 <=? c) && (c <=? 13) || (28 <=? c) && (c <=? 32) ||
   (c =? 133) || (c =? 160) || (c =? 5760) ||
   (8192 <=? c) && (c <=? 8202) || (c =? 8232) || (c =? 8233) ||
   (c =? 8239) || (c =? 8287) || (c =? 12288))%N.

Fixpoint lstrip (s : pystr) : pystr :=
  match s with
  | [] => []
  | c :: t => if py_isspace c then lstrip t else s
  end.

Definition rstrip (s : pystr) : pystr := rev (lstrip (rev s)).

Definition strip (s : pystr) : pystr := rstrip (lstrip s).

(** [s.replace(old, new)] for a non-empty [old]: occurrences are replaced
    from the left and do not overlap. [skip] counts the code points of the
    occurrence just replaced that are still to be passed over. *)
Fixpoint replace_from (old new : pystr) (skip : nat) (s : pystr) : pystr :=
  match s with
  | [] => []
  | c :: t =>
      match skip with
      | S k => replace_from old new k t
      | O =>
          if starts_with old s
          then new ++ replace_from old new (length old - 1) t
          else c :: replace_from old new 0 t
      end
  end.

Definition replace (old new s : pystr) : pystr := replace_from old new 0 s.

(** [sep.join(parts)] *)
Fixpoint str_join (sep : pystr) (parts : list pystr) : pystr :=
  match parts with
  | [] => []
  | [p] => p
  | p :: rest => p ++ sep ++ str_join sep rest
  end.

(** [l[start:]] with Python's treatment of negative and out-of-range
    indices. *)
Definition py_slice_from {A} (start : Z) (l : list A) : list A :=
  let n := Z.of_nat (length l) in
  let i := if (start <? 0)%Z then Z.max (n + start) 0 else Z.min start n in
  skipn (Z.to_nat i) l.

(** [str(n)] for a non-negative integer. *)
Fixpoint digits (fuel : nat) (n : N) (acc : pystr) : pystr :=
  match fuel with
  | O => acc
  | S f =>
      let acc' := (48 + n mod 10)%N :: acc in
      if (n / 10 =? 0)%N then acc' else digits f (n / 10)%N acc'
  end.

Definition str_of_N (n : N) : pystr := digits (S (N.size_nat n)) n [].

(** [str(z)] for an [int]. *)
Definition str_of_Z (z : Z) : pystr :=
  match z with
  | Zneg p => 45%N :: str_of_N (Npos p)
  | _ => str_of_N (Z.to_N z)
  end.

End PyStr.

Import PyStr.

(** ** Builtins taken as parameters *)

(** Outcome of [eval(expression)] followed by the formatting of its value:
    the text [str(result)], a [ZeroDivisionError], or any other exception. *)
Inductive EvalOutcome :=
| EvalValue (shown : pystr)
| EvalZeroDivision
| EvalRaises.

Class PyBuiltins := {
  str_lower : pystr -> pystr;            (* str.lower *)
  str_capitalize : pystr -> pystr;       (* str.capitalize *)
  str_of_list : list pystr -> pystr;     (* str(list_of_str) *)
  py_eval : pystr -> EvalOutcome         (* eval *)
}.

(** A concrete instance, used to run the model on examples. Its [lower]
    covers Basic Latin, Latin-1 and the Cyrillic block; its [eval] knows the
    expressions of the examples. *)
Module Fixture.

Definition lower_char (c : N) : N :=
  if ((65 <=? c) && (c <=? 90))%N then (c + 32)%N
  else if ((192 <=? c) && (c <=? 222) && negb (c =? 215))%N then (c + 32)%N
  else if ((1040 <=? c) && (c <=? 1071))%N then (c + 32)%N
  else if ((1024 <=? c) && (c <=? 1039))%N then (c + 80)%N
  else c.

Definition lower (s : pystr) : pystr := map lower_char s.

Definition capitalize (s : pystr) : pystr :=
  match s with
  | [] => []
  | c :: t =>
      (if ((97 <=? c) && (c <=? 122) || (1072 <=? c) && (c <=? 1103))%N
       then (c - 32)%N else c) :: lower t
  end.

Definition show_list (l : list pystr) : pystr :=
  u "[" ++ str_join (u ", ") (map (fun s => u "'" ++ s ++ u "'") l) ++ u "]".

Definition eval_table : list (pystr * EvalOutcome) :=
  [ (u "2+2", EvalValue (u "4"));
    (u "2*3", EvalValue (u "6"));
    (u "1.5*2", EvalValue (u "3.0"));
    (u "5/0", EvalZeroDivision) ].

Fixpoint eval_lookup (tbl : list (pystr * EvalOutcome)) (e : pystr) : EvalOutcome :=
  match tbl with
  | [] => EvalRaises
  | (k, v) :: rest => if str_eqb k e then v else eval_lookup rest e
  end.

Definition builtins : PyBuiltins := {|
  str_lower := lower;
  str_capitalize := capitalize;
  str_of_list := show_list;
  py_eval := eval_lookup eval_table
|}.

End Fixture.

(** ** Dictionaries in insertion order *)

Definition pydict (V : Type) := list (pystr * V).

(** [d.get(k)] *)
Fixpoint dict_get {V} (k : pystr) (d : pydict V) : option V :=
  match d with
  | [] => None
  | (k', v) :: rest => if str_eqb k' k then Some v else dict_get k rest
  end.

(** [k in d] *)
Definition dict_has {V} (k : pystr) (d : pydict V) : bool :=
  match dict_get k d with Some _ => true | None => false end.

(** [d[k] = v]: an existing key keeps its place, a new key goes last. *)
Fixpoint dict_set {V} (k : pystr) (v : V) (d : pydict V) : pydict V :=
  match d with
  | [] => [(k, v)]
  | (k', v') :: rest =>
      if str_eqb k' k then (k', v) :: rest else (k', v') :: dict_set k v rest
  end.

Definition dict_keys {V} (d : pydict V) : list pystr := map fst d.

(** ** Data model *)

Record ConversationMessage := {
  role : pystr;
  content : pystr;
  timestamp : pystr
}.

(** A message of the request body: [{"role": ..., "content": ...}]. *)
Record ChatMessage := {
  msg_role : pystr;
  msg_content : pystr
}.

(** Values of the session context: texts and lists of texts. *)
Inductive CtxVal :=
| CStr (s : pystr)
| CList (l : list pystr).

Definition Context := pydict CtxVal.

Definition ctx_truthy (v : option CtxVal) : bool :=
  match v with
  | Some (CStr (_ :: _)) => true
  | Some (CList (_ :: _)) => true
  | _ => false
  end.

Definition ctx_text `{PyBuiltins} (v : option CtxVal) : pystr :=
  match v with
  | Some (CStr s) => s
  | Some (CList l) => str_of_list l
  | None => u "None"
  end.

(** Values stored in reply metadata and in skill data. *)
Inductive MetaVal :=
| MStr (s : pystr)
| MBool (b : bool)
| MUsage (usage : pydict Z)
| MData (data : pydict pystr).

Definition Metadata := pydict MetaVal.

(** ** Remote model client ([src/mistral_client.py]) *)

Module MistralClient.

Record Stats := {
  requests : Z;
  tokens_used : Z;
  errors : Z
}.

Record Client := {
  api_key : option pystr;
  model : pystr;
  base_url : pystr;
  available : bool;
  response_cache : pydict pystr;
  cache_size : Z;
  stats : Stats
}.

Definition placeholder_keys : list pystr :=
  [u "your_openrouter_api_key"; u "sk-or-v1-..."; u "sk-or-v1-"; u ""].

Definition default_model : pystr := u "mistralai/mistral-7b-instruct:free".

(** [not api_key or api_key.strip() in placeholder_keys or
    len(api_key.strip()) < 10]; a missing key is [None]. *)
Definition key_rejected (k : option pystr) : bool :=
  match k with
  | None => true
  | Some [] => true
  | Some s =>
      existsb (str_eqb (strip s)) placeholder_keys ||
      (length (strip s) <? 10)%nat
  end.

Definition __init__ (k : option pystr) (m : pystr) : Client := {|
  api_key := k;
  model := m;
  base_url := u "https://openrouter.ai/api/v1";
  available := negb (key_rejected k);
  response_cache := [];
  cache_size := 100;
  stats := {| requests := 0; tokens_used := 0; errors := 0 |}
|}.

Definition is_available (c : Client) : bool := available c.

Definition get_stats (c : Client) : Stats := stats c.

Definition with_stats (c : Client) (s : Stats) : Client := {|
  api_key := api_key c; model := model c; base_url := base_url c;
  available := available c; response_cache := response_cache c;
  cache_size := cache_size c; stats := s
|}.

Definition with_cache (c : Client) (d : pydict pystr) : Client := {|
  api_key := api_key c; model := model c; base_url := base_url c;
  available := available c; response_cache := d;
  cache_size := cache_size c; stats := stats c
|}.

(** [self.stats["requests"] += 1] *)
Definition count_request (c : Client) : Client :=
  with_stats c {| requests := requests (stats c) + 1;
                  tokens_used := tokens_used (stats c);
                  errors := errors (stats c) |}.

(** [self.stats["errors"] += 1] *)
Definition count_error (c : Client) : Client :=
  with_stats c {| requests := requests (stats c);
                  tokens_used := tokens_used (stats c);
                  errors := errors (stats c) + 1 |}.

(** [self.stats["tokens_used"] += n] *)
Definition count_tokens (n : Z) (c : Client) : Client :=
  with_stats c {| requests := requests (stats c);
                  tokens_used := tokens_used (stats c) + n;
                  errors := errors (stats c) |}.

Definition prompt_head : pystr := u "Ты - полезный голосовой ассистент по имени Алекса. 
        Ты помогаешь пользователю с различными задачами: отвечаешь на вопросы, 
        даешь советы, помогаешь с работой и развлекаешь.

        Твои характеристики:
        - Имя: Алекса
        - Пол: женский
        - Характер: дружелюбный, терпеливый, заботливый
        - Стиль общения: естественный, разговорный, но профессиональный
        - Знания: широкие, от технологий до искусства

        Инструкции:
        1. Отвечай на русском языке, используй естественную разговорную речь
        2. Будь краткой, но информативной
        3. Если не знаешь ответа, честно признайся
        4. Поддерживай диалог, задавай уточняющие вопросы
        5. Не выдумывай факты, если не уверена

        Текущий контекст:
        ".

Section WithBuiltins.
Context `{PyBuiltins}.

Definition _create_system_prompt (context : option Context) : pystr :=
  let field (label : pystr) (key : pystr) (ctx : Context) : pystr :=
    if ctx_truthy (dict_get key ctx)
    then label ++ ctx_text (dict_get key ctx) ++ [10%N]
    else [] in
  prompt_head ++
  match context with
  | Some ((_ :: _) as ctx) =>
      field (u "Время: ") (u "time") ctx ++
      field (u "Местоположение: ") (u "location") ctx ++
      field (u "Имя пользователя: ") (u "user_name") ctx
  | _ => []
  end ++
  [10%N] ++ u "Теперь помоги пользователю!".

Definition _prepare_messages (user_message : pystr)
    (history : list ConversationMessage) (context : option Context)
    : list ChatMessage :=
  [{| msg_role := u "system"; msg_content := _create_system_prompt context |}] ++
  map (fun m => {| msg_role := role m; msg_content := content m |})
      (py_slice_from (-10) history) ++
  [{| msg_role := u "user"; msg_content := user_message |}].

End WithBuiltins.

(** [f"{msg['role']}:{msg['content'][:100]}"] joined by ["|"] over
    [messages[-2:]]. *)
Definition _create_cache_key (messages : list ChatMessage) : pystr :=
  str_join (u "|")
    (map (fun m => msg_role m ++ u ":" ++ firstn 100 (msg_content m))
         (py_slice_from (-2) messages)).

(** [_add_to_cache]: at capacity the first key of the dictionary is
    deleted, then the entry is stored. [None] is the [StopIteration] of
    [next(iter({}))] on an empty cache. *)
Definition _add_to_cache (c : Client) (key response : pystr) : option Client :=
  if (cache_size c <=? Z.of_nat (length (response_cache c)))%Z then
    match response_cache c with
    | [] => None
    | _ :: rest => Some (with_cache c (dict_set key response rest))
    end
  else Some (with_cache c (dict_set key response (response_cache c))).

(** What [requests.post] raised. *)
Inductive RequestError :=
| Timeout
| ConnectionError
| OtherError (text : pystr).

Record Choice := {
  choice_content : pystr;
  finish_reason : option pystr
}.

(** The decoded body of a response. [BodyInvalid text] stands for a body on
    which [response.json()] or the access to a field raises an exception
    whose text is [text]. *)
Inductive JsonBody :=
| BodyResult (choices : list Choice) (usage : option (pydict Z)) (served_by : option pystr)
| BodyInvalid (text : pystr).

Inductive HttpOutcome :=
| HttpRaises (e : RequestError)
| HttpResponse (status_code : Z) (body : JsonBody).

(** The request handed to [requests.post]. *)
Record NetRequest := {
  req_url : pystr;
  req_authorization : pystr;
  req_model : pystr;
  req_messages : list ChatMessage;
  req_max_tokens : Z;
  req_temperature : pystr;
  req_top_p : pystr;
  req_frequency_penalty : pystr;
  req_presence_penalty : pystr;
  req_stream : bool;
  req_timeout : Z
}.

Record CallResult := {
  reply : pystr;
  metadata : Metadata;
  client_after : Client;
  sent : list NetRequest
}.

Definition MSG_UNAVAILABLE : pystr :=
  u "Извините, AI сервис временно недоступен. Проверьте настройки API ключа.".
Definition MSG_NO_ANSWER : pystr :=
  u "Извините, не удалось получить ответ от AI модели.".
Definition MSG_BAD_KEY : pystr :=
  u "Ошибка: Неверный API ключ OpenRouter. Проверьте настройки.".
Definition MSG_RATE_LIMIT : pystr :=
  u "Лимит запросов к AI превышен. Попробуйте позже.".
Definition MSG_TIMEOUT : pystr :=
  u "Таймаут при обращении к AI сервису. Попробуйте позже.".
Definition MSG_NO_CONNECTION : pystr :=
  u "Нет соединения с интернетом или AI сервисом.".
Definition msg_status (code : Z) : pystr :=
  u "Ошибка сервиса AI (код: " ++ str_of_Z code ++ u ")".
Definition msg_internal (text : pystr) : pystr :=
  u "Внутренняя ошибка: " ++ text.

Definition key_text (k : option pystr) : pystr :=
  match k with Some s => s | None => u "None" end.

Definition opt_default {A} (d : A) (o : option A) : A :=
  match o with Some a => a | None => d end.

Section WithBuiltins.
Context `{PyBuiltins}.

(** The branch of [generate_response] on the answer of the service, taken
    after a cache miss; [c] already counts the request. *)
Definition handle_outcome (c : Client) (cache_key : pystr) (req : NetRequest)
    (net : HttpOutcome) : CallResult :=
  let failed text :=
    {| reply := text; metadata := []; client_after := count_error c; sent := [req] |} in
  let plain text :=
    {| reply := text; metadata := []; client_after := c; sent := [req] |} in
  match net with
  | HttpRaises Timeout => failed MSG_TIMEOUT
  | HttpRaises ConnectionError => failed MSG_NO_CONNECTION
  | HttpRaises (OtherError text) => failed (msg_internal text)
  | HttpResponse status body =>
      if (status =? 200)%Z then
        match body with
        | BodyInvalid text => failed (msg_internal text)
        | BodyResult [] _ _ => plain MSG_NO_ANSWER
        | BodyResult (first :: _) usage served_by =>
            let assistant_message := strip (choice_content first) in
            let usage := opt_default [] usage in
            let c1 := count_tokens (opt_default 0%Z (dict_get (u "total_tokens") usage)) c in
            match _add_to_cache c1 cache_key assistant_message with
            | None =>
                {| reply := msg_internal []; metadata := [];
                   client_after := count_error c1; sent := [req] |}
            | Some c2 =>
                {| reply := assistant_message;
                   metadata :=
                     [ (u "model", MStr (opt_default (model c) served_by));
                       (u "tokens", MUsage usage);
                       (u "cached", MBool false);
                       (u "finish_reason",
                        MStr (opt_default (u "unknown") (finish_reason first))) ];
                   client_after := c2; sent := [req] |}
            end
        end
      else if (status =? 401)%Z then plain MSG_BAD_KEY
      else if (status =? 429)%Z then plain MSG_RATE_LIMIT
      else failed (msg_status status)
  end.

Definition generate_response (c : Client) (user_message : pystr)
    (conversation_history : list ConversationMessage) (context : option Context)
    (max_tokens : Z) (temperature : pystr) (net : HttpOutcome) : CallResult :=
  if negb (available c) then
    {| reply := MSG_UNAVAILABLE; metadata := []; client_after := c; sent := [] |}
  else
    let c := count_request c in
    let messages := _prepare_messages user_message conversation_history context in
    let cache_key := _create_cache_key messages in
    match dict_get cache_key (response_cache c) with
    | Some cached =>
        {| reply := cached; metadata := [(u "cached", MBool true)];
           client_after := c; sent := [] |}
    | None =>
        let req := {|
          req_url := base_url c ++ u "/chat/completions";
          req_authorization := u "Bearer " ++ key_text (api_key c);
          req_model := model c;
          req_messages := messages;
          req_max_tokens := max_tokens;
          req_temperature := temperature;
          req_top_p := u "0.9";
          req_frequency_penalty := u "0.1";
          req_presence_penalty := u "0.1";
          req_stream := false;
          req_timeout := 30 |} in
        handle_outcome c cache_key req net
    end.

(** One call of [generate_response]: its arguments and what the service
    answers if it is asked. *)
Record Call := {
  call_message : pystr;
  call_history : list ConversationMessage;
  call_context : option Context;
  call_max_tokens : Z;
  call_temperature : pystr;
  call_net : HttpOutcome
}.

Definition call_on (c : Client) (x : Call) : CallResult :=
  generate_response c (call_message x) (call_history x) (call_context x)
    (call_max_tokens x) (call_temperature x) (call_net x).

(** The client after a sequence of calls. *)
Fixpoint after_calls (c : Client) (calls : list Call) : Client :=
  match calls with
  | [] => c
  | x :: rest => after_calls (client_after (call_on c x)) rest
  end.

Definition messages_of (x : Call) : list ChatMessage :=
  _prepare_messages (call_message x) (call_history x) (call_context x).

End WithBuiltins.

(** The last two messages, each as its role and the first 100 code points
    of its content. *)
Definition message_tail (messages : list ChatMessage) : list (pystr * pystr) :=
  map (fun m => (msg_role m, firstn 100 (msg_content m)))
      (py_slice_from (-2) messages).

End MistralClient.

(** ** Conversation orchestrator ([src/assistant.py]) *)

Module VoiceAIAssistant.

Import MistralClient.

Inductive AssistantState := IDLE | LISTENING | PROCESSING | SPEAKING | ERROR.

Record SkillResult := {
  success : bool;
  response : pystr;
  data : pydict pystr;
  should_continue : bool
}.

(** The part of the merged configuration that the core reads. *)
Record Config := {
  cfg_api_key : option pystr;       (* mistral.api_key *)
  cfg_model : pystr;                (* mistral.model *)
  cfg_user_name : pystr;            (* user.name *)
  cfg_location : pystr;             (* user.location *)
  cfg_interests : list pystr;       (* user.interests *)
  cfg_weather_key : pystr           (* skills.weather.api_key *)
}.

Record Assistant := {
  config : Config;
  state : AssistantState;
  is_running : bool;
  conversation_history : list ConversationMessage;
  max_history : Z;
  mistral_client : option Client;
  context : Context
}.

(** *** What one command receives from the outside world *)

Inductive Platform := Windows | Darwin | OtherPlatform.

(** A reading of [datetime.now()] with the renderings the code asks for. *)
Record DateTime := {
  fmt_time : pystr;        (* strftime('%H:%M:%S') *)
  fmt_date : pystr;        (* strftime('%d %B %Y года') *)
  fmt_short : pystr;       (* strftime('%H:%M, %d.%m.%Y') *)
  weekday : nat;
  isoformat : pystr
}.

Record WeatherBody := {
  w_temp : pystr;
  w_feels_like : pystr;
  w_description : pystr;
  w_humidity : pystr
}.

(** [requests.get] of the weather skill: it raises, or answers with a status
    and a body ([None]: a body whose fields cannot be read). *)
Inductive WeatherOutcome :=
| WeatherRaises
| WeatherResponse (code : Z) (body : option WeatherBody).

Record Inputs := {
  user_time : pystr;              (* isoformat of now, user message *)
  skill_now : DateTime;           (* now, time skill *)
  assistant_time : pystr;         (* isoformat of now, assistant message *)
  rand_weather : nat -> N;        (* raw draws of the weather skill, in order *)
  rand_joke : N;                  (* raw draw of random.choice(jokes) *)
  rand_fallback : N;              (* raw draw of the fallback reply *)
  platform : Platform;            (* platform.system() *)
  cwd : pystr;                    (* os.path.abspath(".") *)
  launch_error : option pystr;    (* text of the exception raised by
                                     webbrowser.open, os.system or
                                     os.startfile, if it raises *)
  weather_net : WeatherOutcome;
  model_net : HttpOutcome
}.

(** *** What one command does to the outside world *)

Inductive Event :=
| StateChanged (old new : AssistantState)           (* on_state_change *)
| ConversationUpdated (m : ConversationMessage)     (* on_conversation_update *)
| AiResponded (md : Metadata)                       (* on_ai_response *)
| ErrorReported (text : pystr)                      (* on_error *)
| IdleRevertScheduled                               (* threading.Timer(2.0, ...) *)
| BrowserOpened (url : pystr)                       (* webbrowser.open *)
| SystemCommand (cmd : pystr)                       (* os.system *)
| FileStarted (path : pystr)                        (* os.startfile *)
| WeatherRequested (url : pystr)                    (* requests.get *)
| ModelCalled (user_message : pystr)                (* generate_response *)
| ModelRequested (req : NetRequest).                (* requests.post *)

(** *** Commands: state, events and exceptions *)

Inductive Completion (A : Type) :=
| Returned (a : A)
| Raised (text : pystr).
Arguments Raised {A} text.

Record Step (A : Type) := {
  outcome : Completion A;
  after : Assistant;
  events : list Event
}.

Definition Cmd (A : Type) := Assistant -> Step A.

Definition ret {A} (a : A) : Cmd A :=
  fun s => {| outcome := Returned a; after := s; events := [] |}.

Definition bind {A B} (c : Cmd A) (k : A -> Cmd B) : Cmd B :=
  fun s =>
    let r := c s in
    match outcome r with
    | Returned a =>
        let r' := k a (after r) in
        {| outcome := outcome r'; after := after r'; events := events r ++ events r' |}
    | Raised text =>
        {| outcome := Raised text; after := after r; events := events r |}
    end.

Definition raise {A} (text : pystr) : Cmd A :=
  fun s => {| outcome := Raised text; after := s; events := [] |}.

(** [try: body except Exception as e: handler(str(e))] *)
Definition try_except {A} (body : Cmd A) (handler : pystr -> Cmd A) : Cmd A :=
  fun s =>
    let r := body s in
    match outcome r with
    | Returned a => r
    | Raised text =>
        let r' := handler text (after r) in
        {| outcome := outcome r'; after := after r'; events := events r ++ events r' |}
    end.

Definition emit (e : Event) : Cmd unit :=
  fun s => {| outcome := Returned tt; after := s; events := [e] |}.

Definition get : Cmd Assistant :=
  fun s => {| outcome := Returned s; after := s; events := [] |}.

Definition put (s' : Assistant) : Cmd unit :=
  fun _ => {| outcome := Returned tt; after := s'; events := [] |}.

Declare Scope cmd_scope.
Delimit Scope cmd_scope with cmd.
Notation "x <- c ;; k" := (bind c (fun x => k))
  (at level 61, c at next level, right associativity) : cmd_scope.
Notation "c ;; k" := (bind c (fun _ => k))
  (at level 61, right associativity) : cmd_scope.
Local Open Scope cmd_scope.

Definition with_state (s : Assistant) (st : AssistantState) : Assistant := {|
  config := config s; state := st; is_running := is_running s;
  conversation_history := conversation_history s; max_history := max_history s;
  mistral_client := mistral_client s; context := context s
|}.

Definition with_history (s : Assistant) (h : list ConversationMessage) : Assistant := {|
  config := config s; state := state s; is_running := is_running s;
  conversation_history := h; max_history := max_history s;
  mistral_client := mistral_client s; context := context s
|}.

Definition with_client (s : Assistant) (c : option Client) : Assistant := {|
  config := config s; state := state s; is_running := is_running s;
  conversation_history := conversation_history s; max_history := max_history s;
  mistral_client := c; context := context s
|}.

Definition _change_state (new_state : AssistantState) : Cmd unit :=
  s <- get ;;
  put (with_state s new_state) ;;
  emit (StateChanged (state s) new_state).

(** [webbrowser.open], [os.system], [os.startfile]: the action is recorded,
    unless the call raises. *)
Definition launch (inp : Inputs) (e : Event) : Cmd unit :=
  match launch_error inp with
  | Some text => raise text
  | None => emit e
  end.

Definition nl : pystr := [10%N].
Definition dq : pystr := [34%N].

(** [random.randint(a, b)] and [random.choice(l)] on a raw draw. *)
Definition randint (a b : Z) (raw : N) : Z := (a + Z.of_N raw mod (b - a + 1))%Z.
Definition choice (l : list pystr) (raw : N) : pystr :=
  nth (N.to_nat raw mod length l) l [].

Definition failed_skill : SkillResult :=
  {| success := false; response := []; data := []; should_continue := true |}.

(** [word in text_lower] for a literal [word]. *)
Definition mentions (text_lower : pystr) (word : string) : bool :=
  str_in (u word) text_lower.

Section WithBuiltins.
Context `{PyBuiltins}.

(** *** Skills *)

Definition days : list pystr :=
  [u "понедельник"; u "вторник"; u "среда"; u "четверг"; u "пятница";
   u "суббота"; u "воскресенье"].

Definition _skill_time (inp : Inputs) (text : pystr) : Cmd SkillResult :=
  let now := skill_now inp in
  let response :=
    if str_in (u "время") (str_lower text) then u "Сейчас " ++ fmt_time now
    else if str_in (u "дата") (str_lower text) then
      u "Сегодня " ++ fmt_date now ++ u ", " ++ nth (weekday now) days []
    else u "Сейчас " ++ fmt_short now in
  ret {| success := true; response := response;
         data := [(u "type", u "time"); (u "timestamp", isoformat now)];
         should_continue := false |}.

Definition cities : list (pystr * pystr) :=
  [ (u "москва", u "Москва"); (u "питер", u "Санкт-Петербург");
    (u "петербург", u "Санкт-Петербург"); (u "спб", u "Санкт-Петербург");
    (u "новосибирск", u "Новосибирск"); (u "екатеринбург", u "Екатеринбург");
    (u "казань", u "Казань"); (u "нижний новгород", u "Нижний Новгород");
    (u "челябинск", u "Челябинск"); (u "самара", u "Самара");
    (u "омск", u "Омск"); (u "ростов", u "Ростов-на-Дону"); (u "уфа", u "Уфа");
    (u "красноярск", u "Красноярск"); (u "пермь", u "Пермь");
    (u "воронеж", u "Воронеж"); (u "волгоград", u "Волгоград");
    (u "сочи", u "Сочи"); (u "краснодар", u "Краснодар") ].

Definition _extract_city (text : pystr) : pystr :=
  match find (fun kv => str_in (fst kv) (str_lower text)) cities with
  | Some (_, city_name) => city_name
  | None => []
  end.

Definition conditions : list pystr :=
  [u "ясно"; u "облачно"; u "пасмурно"; u "небольшой дождь"; u "снег"; u "туман"].

(** The demo table of temperatures: one draw per city, in the order of the
    dictionary literal. *)
Definition demo_temperatures (draw : nat -> N) : pydict Z :=
  [ (u "москва", randint (-10) 5 (draw 0%nat));
    (u "санкт-петербург", randint (-8) 3 (draw 1%nat));
    (u "новосибирск", randint (-15) (-5) (draw 2%nat));
    (u "сочи", randint 5 15 (draw 3%nat));
    (u "казань", randint (-7) 2 (draw 4%nat));
    (u "екатеринбург", randint (-12) (-3) (draw 5%nat)) ].

(** The whole body of [_skill_weather] is inside [try]: every exception
    gives the failed result. *)
Definition _skill_weather (inp : Inputs) (text : pystr) : Cmd SkillResult :=
  s <- get ;;
  let found := _extract_city text in
  let city : CtxVal :=
    match found with
    | _ :: _ => CStr found
    | [] => opt_default (CStr (u "Москва")) (dict_get (u "location") (context s))
    end in
  let result city_text response :=
    {| success := true; response := response;
       data := [(u "type", u "weather"); (u "city", city_text)];
       should_continue := true |} in
  let api_key := cfg_weather_key (config s) in
  if match api_key with [] => true | _ => str_eqb api_key (u "your_openweather_api_key") end
  then
    match city with
    | CList _ => ret failed_skill                 (* list has no lower() *)
    | CStr city =>
        let draw := rand_weather inp in
        let temp :=
          opt_default (randint (-5) 10 (draw 6%nat))
                      (dict_get (str_lower city) (demo_temperatures draw)) in
        let condition := choice conditions (draw 7%nat) in
        ret (result city
               (u "В " ++ city ++ u " сейчас " ++ condition ++ u ", около " ++
                str_of_Z temp ++ u "°C. (демо-режим)"))
    end
  else
    let city := ctx_text (Some city) in
    let url :=
      u "http://api.openweathermap.org/data/2.5/weather?q=" ++ city ++
      u "&appid=" ++ api_key ++ u "&units=metric&lang=ru" in
    emit (WeatherRequested url) ;;
    match weather_net inp with
    | WeatherRaises => ret failed_skill
    | WeatherResponse code body =>
        if (code =? 200)%Z then
          match body with
          | None => ret failed_skill
          | Some b =>
              ret (result city
                     (u "Погода в " ++ city ++ u ":" ++ nl ++
                      u "• " ++ str_capitalize (w_description b) ++ nl ++
                      u "• Температура: " ++ w_temp b ++ u "°C (ощущается как " ++
                      w_feels_like b ++ u "°C)" ++ nl ++
                      u "• Влажность: " ++ w_humidity b ++ u "%"))
          end
        else ret (result city (u "Не удалось получить погоду для " ++ city))
    end.

Definition by_platform (inp : Inputs) (windows darwin other : Event) : Cmd unit :=
  launch inp match platform inp with
             | Windows => windows
             | Darwin => darwin
             | OtherPlatform => other
             end.

Definition _skill_system (inp : Inputs) (text : pystr) : Cmd SkillResult :=
  let text_lower := str_lower text in
  action <-
    (if mentions text_lower "браузер" || mentions text_lower "интернет" then
       launch inp (BrowserOpened (u "https://www.google.com")) ;;
       ret (Some (u "открыл браузер"))
     else if mentions text_lower "калькулятор" then
       by_platform inp (SystemCommand (u "calc"))
                       (SystemCommand (u "open -a Calculator"))
                       (SystemCommand (u "gnome-calculator")) ;;
       ret (Some (u "запустил калькулятор"))
     else if mentions text_lower "блокнот" || mentions text_lower "notepad" then
       by_platform inp (SystemCommand (u "notepad"))
                       (SystemCommand (u "open -a TextEdit"))
                       (SystemCommand (u "gedit")) ;;
       ret (Some (u "открыл блокнот"))
     else if mentions text_lower "папка" && mentions text_lower "проект" then
       by_platform inp (FileStarted (cwd inp))
                       (SystemCommand (u "open " ++ dq ++ cwd inp ++ dq))
                       (SystemCommand (u "xdg-open " ++ dq ++ cwd inp ++ dq)) ;;
       ret (Some (u "открыл папку проекта"))
     else if mentions text_lower "выключи" && mentions text_lower "компьютер" then
       ret (Some (u "Выключение компьютера требует подтверждения вручную"))
     else ret None) ;;
  match action with
  | Some ((_ :: _) as action) =>
      ret {| success := true; response := u "Я " ++ action ++ u ".";
             data := [(u "type", u "system"); (u "action", action)];
             should_continue := true |}
  | _ => ret failed_skill
  end.

(** [for keyword in keywords: s = s.replace(keyword, "")] *)
Definition strip_keywords (keywords : list pystr) (s : pystr) : pystr :=
  fold_left (fun acc keyword => replace keyword [] acc) keywords s.

Definition web_keywords : list pystr :=
  [u "найди"; u "поищи"; u "ищи"; u "найти"; u "гугл"; u "браузер"; u "ютуб";
   u "youtube"].

Definition _skill_web (inp : Inputs) (text : pystr) : Cmd SkillResult :=
  let text_lower := str_lower text in
  let query := strip (strip_keywords web_keywords text_lower) in
  match query with
  | [] =>
      ret {| success := true; response := u "Что именно вы хотите найти?";
             data := [(u "type", u "web"); (u "action", u "ask_query")];
             should_continue := false |}
  | _ :: _ =>
      let video := str_in (u "ютуб") text_lower || str_in (u "youtube") text_lower in
      let url :=
        if video then u "https://www.youtube.com/results?search_query=" ++ query
        else u "https://www.google.com/search?q=" ++ query in
      let action := if video then u "поиск на YouTube" else u "поиск в Google" in
      try_except
        (launch inp (BrowserOpened url) ;;
         ret {| success := true;
                response := u "Ищу '" ++ query ++ u "'... Открываю " ++ action ++ u ".";
                data := [(u "type", u "web"); (u "query", query); (u "url", url)];
                should_continue := true |})
        (fun _ => ret failed_skill)
  end.

Definition calc_keywords : list pystr :=
  [u "посчитай"; u "сколько будет"; u "калькулятор"; u "вычисли"].

Definition allowed : pystr := u "0123456789+-*/.() ".

(** The expression left after the keywords are removed and the ends are
    stripped. *)
Definition calc_residual (text : pystr) : pystr :=
  strip (strip_keywords calc_keywords (str_lower text)).

(** [replace("x", "*").replace("х", "*")] (Latin and Cyrillic letter) and
    [replace(",", ".")]. *)
Definition calc_normalize (expression : pystr) : pystr :=
  replace (u ",") (u ".") (replace (u "х") (u "*") (replace (u "x") (u "*") expression)).

Definition calc_ask : SkillResult :=
  {| success := true; response := u "Какое выражение вы хотите вычислить?";
     data := [(u "type", u "calculation")]; should_continue := false |}.

Definition calc_refusal : SkillResult :=
  {| success := true;
     response := u "Я могу вычислять только простые математические выражения с цифрами и операторами + - * /";
     data := [(u "type", u "calculation"); (u "error", u "invalid_chars")];
     should_continue := false |}.

Definition calc_zero_division : SkillResult :=
  {| success := true; response := u "На ноль делить нельзя!";
     data := [(u "type", u "calculation"); (u "error", u "zero_division")];
     should_continue := false |}.

Definition calculation (text : pystr) : SkillResult :=
  match calc_residual text with
  | [] => calc_ask
  | (_ :: _) as expression =>
      let expression := calc_normalize expression in
      if negb (forallb (char_in allowed) expression) then calc_refusal
      else
        match py_eval expression with
        | EvalValue result =>
            {| success := true; response := expression ++ u " = " ++ result;
               data := [(u "type", u "calculation"); (u "expression", expression);
                        (u "result", result)];
               should_continue := true |}
        | EvalZeroDivision => calc_zero_division
        | EvalRaises => failed_skill
        end
  end.

Definition _skill_calculation (text : pystr) : Cmd SkillResult :=
  ret (calculation text).

Definition jokes : list pystr :=
  [ u "Почему программисты не любят природу? В ней слишком много багов!";
    u "Что сказал один бит другому? Давай встретимся на байтовой вечеринке!";
    u "Почему Python не идет в спортзал? Он боится синтаксических ошибок!";
    u "Какой у программиста любимый напиток? Java!";
    u "Почему компьютер так холоден? Потому что у него Windows всегда открыты!" ].

Definition _skill_entertainment (inp : Inputs) (text : pystr) : Cmd SkillResult :=
  let text_lower := str_lower text in
  let result subtype response :=
    {| success := true; response := response;
       data := [(u "type", u "entertainment"); (u "subtype", subtype)];
       should_continue := true |} in
  if mentions text_lower "шутка" || mentions text_lower "пошути" || mentions text_lower "анекдот" then
    ret (result (u "joke") (choice jokes (rand_joke inp)))
  else if mentions text_lower "музыка" then
    launch inp (BrowserOpened (u "https://www.youtube.com")) ;;
    ret (result (u "music") (u "Открываю YouTube, выберите музыку по вкусу!"))
  else if mentions text_lower "фильм" then
    launch inp (BrowserOpened (u "https://www.kinopoisk.ru")) ;;
    ret (result (u "movie") (u "Открываю Кинопоиск, хорошего просмотра!"))
  else ret failed_skill.

Definition _skill_note (text : pystr) : Cmd SkillResult :=
  ret {| success := true;
         response := u "Я запомнил это. (В реальной версии заметки сохраняются)";
         data := [(u "type", u "note"); (u "text", text)];
         should_continue := true |}.

Definition _skill_reminder (text : pystr) : Cmd SkillResult :=
  ret {| success := true;
         response := u "Напоминание установлено. (В реальной версии работает система напоминаний)";
         data := [(u "type", u "reminder"); (u "text", text)];
         should_continue := true |}.

Definition CLEARED : pystr := u "История диалога очищена. Начинаем новую беседу!".

Definition _skill_clear_history (text : pystr) : Cmd SkillResult :=
  s <- get ;;
  put (with_history s []) ;;
  ret {| success := true; response := CLEARED;
         data := [(u "type", u "system"); (u "action", u "clear_history")];
         should_continue := false |}.

(** *** Dispatch *)

Definition kw_time : list pystr :=
  [u "время"; u "который час"; u "сколько времени"; u "дата"; u "сегодня число"].
Definition kw_weather : list pystr :=
  [u "погода"; u "температура"; u "градус"; u "дождь"; u "солнце"].
Definition kw_system : list pystr :=
  [u "открой"; u "запусти"; u "выключи"; u "перезагрузи"; u "закрой"].
Definition kw_web : list pystr :=
  [u "найди"; u "поищи"; u "гугл"; u "браузер"; u "ютуб"].
Definition kw_calculation : list pystr :=
  [u "посчитай"; u "сколько будет"; u "калькулятор"; u "вычисли"].
Definition kw_entertainment : list pystr :=
  [u "шутка"; u "пошути"; u "анекдот"; u "музыка"; u "фильм"].
Definition kw_note : list pystr :=
  [u "запомни"; u "запиши"; u "заметка"; u "запись"].
Definition kw_reminder : list pystr :=
  [u "напомни"; u "напоминание"; u "напомнить"].
Definition kw_clear : list pystr :=
  [u "очисти историю"; u "очистить чат"; u "новая сессия"].

Definition _check_skills (inp : Inputs) (text : pystr) : Cmd SkillResult :=
  let text_lower := str_lower text in
  if any_in kw_time text_lower then _skill_time inp text
  else if any_in kw_weather text_lower then _skill_weather inp text
  else if any_in kw_system text_lower then _skill_system inp text
  else if any_in kw_web text_lower then _skill_web inp text
  else if any_in kw_calculation text_lower then _skill_calculation text
  else if any_in kw_entertainment text_lower then _skill_entertainment inp text
  else if any_in kw_note text_lower then _skill_note text
  else if any_in kw_reminder text_lower then _skill_reminder text
  else if any_in kw_clear text_lower then _skill_clear_history text
  else ret {| success := false; response := []; data := []; should_continue := true |}.

(** *** Fallback reply *)

Definition _get_fallback_response (inp : Inputs) (ctx : Context) (text : pystr) : pystr :=
  let text_lower := str_lower text in
  let pick l := choice l (rand_fallback inp) in
  if any_in [u "привет"; u "здравствуй"; u "хай"; u "hello"] text_lower then
    pick [ u "Привет, " ++
             match dict_get (u "user_name") ctx with
             | Some v => ctx_text (Some v)
             | None => u "друг"
             end ++ u "!";
           u "Здравствуйте! Чем могу помочь?";
           u "Приветствую! Готов помочь вам!" ]
  else if any_in [u "как дела"; u "как ты"; u "как жизнь"] text_lower then
    pick [ u "У меня всё отлично, спасибо! А у вас?";
           u "Прекрасно! Всегда рад помочь.";
           u "Всё хорошо, готов к работе!" ]
  else if any_in [u "спасибо"; u "благодарю"] text_lower then
    pick [ u "Всегда пожалуйста!"; u "Рад был помочь!"; u "Обращайтесь ещё!" ]
  else if any_in [u "пока"; u "до свидания"; u "прощай"] text_lower then
    pick [ u "До свидания! Возвращайтесь."; u "Пока! Буду рад помочь снова.";
           u "Всего хорошего!" ]
  else if mentions text_lower "что ты умеешь" || mentions text_lower "помощь" then
    u "Я могу:" ++ nl ++
    u "• Отвечать на вопросы о времени и дате" ++ nl ++
    u "• Рассказывать о погоде" ++ nl ++
    u "• Открывать браузер и программы" ++ nl ++
    u "• Искать в интернете" ++ nl ++
    u "• Выполнять вычисления" ++ nl ++
    u "• Рассказывать шутки" ++ nl ++
    u "• И многое другое!" ++ nl ++ nl ++
    u "Для полного функционала с AI установите API ключ OpenRouter."
  else
    pick [ u "Извините, я не совсем понял. Можете переформулировать?";
           u "Пока я учусь понимать такие запросы. Попробуйте другую формулировку.";
           u "Интересный вопрос! К сожалению, мои AI возможности временно ограничены.";
           u "Для ответа на этот вопрос мне нужен доступ к AI модели. Установите API ключ OpenRouter." ].

(** *** Processing of one command *)

Definition SEPARATOR : pystr := nl ++ nl.

Definition skill_metadata (skill_result : SkillResult) : Metadata :=
  [(u "source", MStr (u "skill")); (u "skill_data", MData (data skill_result))].

Fixpoint emit_all (es : list Event) : Cmd unit :=
  match es with
  | [] => ret tt
  | e :: rest => emit e ;; emit_all rest
  end.

(** The reply without the model, when it is absent or unavailable. *)
Definition local_reply (inp : Inputs) (text : pystr) (skill_result : SkillResult)
    : Cmd (pystr * Metadata) :=
  s <- get ;;
  if success skill_result
  then ret (response skill_result, skill_metadata skill_result)
  else ret (_get_fallback_response inp (context s) text,
            [(u "source", MStr (u "fallback"))]).

(** The choice of the reply and of its metadata in [_process_command]. *)
Definition compose_reply (inp : Inputs) (text : pystr) (skill_result : SkillResult)
    : Cmd (pystr * Metadata) :=
  if success skill_result && negb (should_continue skill_result) then
    ret (response skill_result, skill_metadata skill_result)
  else
    s <- get ;;
    match mistral_client s with
    | Some c =>
        if is_available c then
          emit (ModelCalled text) ;;
          let r := generate_response c text (conversation_history s)
                     (Some (context s)) 500 (u "0.7") (model_net inp) in
          put (with_client s (Some (client_after r))) ;;
          emit_all (map ModelRequested (sent r)) ;;
          if success skill_result then
            ret (response skill_result ++ SEPARATOR ++ reply r,
                 dict_set (u "source") (MStr (u "hybrid")) (metadata r))
          else
            ret (reply r, dict_set (u "source") (MStr (u "ai")) (metadata r))
        else local_reply inp text skill_result
    | None => local_reply inp text skill_result
    end.

Definition append_message (m : ConversationMessage) : Cmd unit :=
  s <- get ;;
  put (with_history s (conversation_history s ++ [m])).

(** [if len(h) > max_history: h = h[-max_history:]] *)
Definition truncate (max_history : Z) (h : list ConversationMessage)
    : list ConversationMessage :=
  if (max_history <? Z.of_nat (length h))%Z
  then py_slice_from (- max_history) h
  else h.

Definition trim_history : Cmd unit :=
  s <- get ;;
  put (with_history s (truncate (max_history s) (conversation_history s))).

(** The revert to [IDLE] two seconds later runs on a timer thread and is
    only recorded as scheduled. *)
Definition _handle_error (error : pystr) : Cmd unit :=
  _change_state ERROR ;;
  emit (ErrorReported error) ;;
  emit IdleRevertScheduled.

Definition user_message_of (inp : Inputs) (text : pystr) : ConversationMessage :=
  {| role := u "user"; content := text; timestamp := user_time inp |}.

Definition assistant_message_of (inp : Inputs) (text : pystr) : ConversationMessage :=
  {| role := u "assistant"; content := text; timestamp := assistant_time inp |}.

Definition _process_command (inp : Inputs) (text : pystr) : Cmd unit :=
  try_except
    (_change_state PROCESSING ;;
     let user_message := user_message_of inp text in
     append_message user_message ;;
     emit (ConversationUpdated user_message) ;;
     skill_result <- _check_skills inp text ;;
     composed <- compose_reply inp text skill_result ;;
     let assistant_message := assistant_message_of inp (fst composed) in
     append_message assistant_message ;;
     emit (ConversationUpdated assistant_message) ;;
     emit (AiResponded (snd composed)) ;;
     trim_history ;;
     _change_state IDLE)
    (fun e => _handle_error (u "Ошибка: " ++ e)).

(** [_processing_loop] on the commands taken from the queue, each with what
    the outside world answers while it is processed. *)
Fixpoint _processing_loop (queue : list (Inputs * pystr)) : Cmd unit :=
  match queue with
  | [] => ret tt
  | (inp, command) :: rest =>
      _process_command inp command ;; _processing_loop rest
  end.

(** *** The dispatch as the specification words it *)

Record Category := {
  cat_name : string;
  cat_keywords : list pystr;
  cat_handler : Inputs -> pystr -> Cmd SkillResult
}.

Definition spec_priority_list : list Category :=
  [ {| cat_name := "time/date"; cat_keywords := kw_time;
       cat_handler := _skill_time |};
    {| cat_name := "weather"; cat_keywords := kw_weather;
       cat_handler := _skill_weather |};
    {| cat_name := "system-control"; cat_keywords := kw_system;
       cat_handler := _skill_system |};
    {| cat_name := "web-search"; cat_keywords := kw_web;
       cat_handler := _skill_web |};
    {| cat_name := "calculation"; cat_keywords := kw_calculation;
       cat_handler := fun _ => _skill_calculation |};
    {| cat_name := "entertainment"; cat_keywords := kw_entertainment;
       cat_handler := _skill_entertainment |};
    {| cat_name := "note"; cat_keywords := kw_note;
       cat_handler := fun _ => _skill_note |};
    {| cat_name := "reminder"; cat_keywords := kw_reminder;
       cat_handler := fun _ => _skill_reminder |};
    {| cat_name := "clear-history"; cat_keywords := kw_clear;
       cat_handler := fun _ => _skill_clear_history |} ].

(** Some keyword of the category occurs in the text, letter case ignored. *)
Definition spec_category_test (c : Category) (text : pystr) : bool :=
  existsb (fun keyword => str_in keyword (str_lower text)) (cat_keywords c).

Definition spec_first_match (text : pystr) : option Category :=
  find (fun c => spec_category_test c text) spec_priority_list.

Definition spec_no_match : SkillResult :=
  {| success := false; response := []; data := []; should_continue := true |}.

Definition spec_check_skills (inp : Inputs) (text : pystr) : Cmd SkillResult :=
  match spec_first_match text with
  | Some c => cat_handler c inp text
  | None => ret spec_no_match
  end.

End WithBuiltins.

(** [VoiceAIAssistant.__init__] on the merged configuration; [importable]
    tells whether [mistral_client] could be imported, [now] is the reading
    of the clock. *)
Definition __init__ (cfg : Config) (importable : bool) (now : pystr) : Assistant := {|
  config := cfg;
  state := IDLE;
  is_running := false;
  conversation_history := [];
  max_history := 100;
  mistral_client :=
    if importable
    then Some (MistralClient.__init__ (cfg_api_key cfg) (cfg_model cfg))
    else None;
  context :=
    [ (u "user_name", CStr (cfg_user_name cfg));
      (u "location", CStr (cfg_location cfg));
      (u "interests", CList (cfg_interests cfg));
      (u "last_active", CStr now) ]
|}.

(** *** Context and configuration *)

Definition with_context (s : Assistant) (ctx : Context) : Assistant := {|
  config := config s; state := state s; is_running := is_running s;
  conversation_history := conversation_history s; max_history := max_history s;
  mistral_client := mistral_client s; context := ctx
|}.

(** [update_context(key, value)]; [now] is the reading of the clock. *)
Definition update_context (key : pystr) (value : CtxVal) (now : pystr) : Cmd unit :=
  bind get (fun s =>
    put (with_context s
           (dict_set (u "last_active") (CStr now)
              (dict_set key value (context s))))).

(** A configuration document: a dictionary, or any other value. *)
Inductive Json (A : Type) :=
| JAtom (a : A)
| JDict (entries : list (pystr * Json A)).
Arguments JAtom {A} a.
Arguments JDict {A} entries.

(** What one turn of the loop of [_deep_update] stores under [key], where
    [old] is [source.get(key)]: two dictionaries are merged, anything else
    is replaced by the new value. *)
Fixpoint merged {A} (value : Json A) (old : option (Json A)) {struct value} : Json A :=
  match value with
  | JAtom _ => value
  | JDict inner =>
      match old with
      | Some (JDict source) =>
          JDict
            ((fix loop (update : list (pystr * Json A)) (source : pydict (Json A)) :=
                match update with
                | [] => source
                | (key, v) :: rest =>
                    loop rest (dict_set key (merged v (dict_get key source)) source)
                end) inner source)
      | _ => value
      end
  end.

(** [_deep_update(source, update)]: the dictionary [source] after the
    loop over [update.items()]. *)
Fixpoint _deep_update {A} (source : pydict (Json A)) (update : list (pystr * Json A))
    : pydict (Json A) :=
  match update with
  | [] => source
  | (key, value) :: rest =>
      _deep_update (dict_set key (merged value (dict_get key source)) source) rest
  end.

(** The values of the default configuration. *)
Inductive Setting :=
| SText (s : pystr)
| SNumber (n : Z)
| STexts (l : list pystr).

Definition default_config_tree : pydict (Json Setting) :=
  [ (u "mistral",
     JDict [ (u "api_key", JAtom (SText (u "your_openrouter_api_key")));
             (u "model", JAtom (SText (u "mistralai/mistral-7b-instruct:free"))) ]);
    (u "user",
     JDict [ (u "name", JAtom (SText (u "Пользователь")));
             (u "location", JAtom (SText (u "Москва")));
             (u "interests",
              JAtom (STexts [u "технологии"; u "музыка"; u "спорт"])) ]);
    (u "assistant",
     JDict [ (u "name", JAtom (SText (u "Алекса")));
             (u "personality", JAtom (SText (u "дружелюбная, умная, помогающая")));
             (u "max_history", JAtom (SNumber 100)) ]);
    (u "skills",
     JDict [ (u "weather",
              JDict [ (u "api_key", JAtom (SText []));
                      (u "default_city", JAtom (SText (u "Москва"))) ]) ]) ].

(** What is found at [config_path]: no file, a file that cannot be opened
    or parsed, or a parsed document. *)
Inductive ConfigFile :=
| NoFile
| Unreadable
| Parsed (user_config : Json Setting).

(** [_load_config]: a document that is not a dictionary has no [items()];
    the exception is caught like the others and the defaults are
    returned. *)
Definition _load_config (file : ConfigFile) : pydict (Json Setting) :=
  match file with
  | Parsed (JDict user_config) => _deep_update default_config_tree user_config
  | _ => default_config_tree
  end.

End VoiceAIAssistant.

(** * Vocabulary of the statements *)

Import MistralClient VoiceAIAssistant.

(** What [generate_response] returns before anything else is done. *)
Definition unavailable_result (c : Client) : CallResult :=
  {| reply := MSG_UNAVAILABLE; metadata := []; client_after := c; sent := [] |}.

(** The dictionary holds [k |-> v], found first under [k], with at most [m]
    entries behind it. *)
Definition entry_within {V} (k : pystr) (v : V) (m : nat) (d : pydict V) : Prop :=
  exists pre post,
    d = pre ++ (k, v) :: post /\ ~ In k (dict_keys pre) /\ (length post <= m)%nat.

(** [c] run in [s] returns [a], leaves [s'] and emits [ev]; or raises. *)
Definition returns {A} (c : Cmd A) (s : Assistant) (a : A) (s' : Assistant)
    (ev : list Event) : Prop :=
  c s = {| outcome := Returned a; after := s'; events := ev |}.

Definition raises {A} (c : Cmd A) (s : Assistant) (text : pystr) (s' : Assistant)
    (ev : list Event) : Prop :=
  c s = {| outcome := Raised text; after := s'; events := ev |}.

(** The command leaves the assistant as it found it. *)
Definition keeps_state {A} (c : Cmd A) : Prop := forall s, after (c s) = s.

(** The result of [_skill_clear_history]. *)
Definition cleared_result : SkillResult :=
  {| success := true; response := CLEARED;
     data := [(u "type", u "system"); (u "action", u "clear_history")];
     should_continue := false |}.

(** The assistant when the skills are consulted: in state [PROCESSING],
    the user message appended. *)
Definition entered (inp : Inputs) (text : pystr) (a : Assistant) : Assistant :=
  with_history (with_state a PROCESSING)
    (conversation_history a ++ [user_message_of inp text]).

(** The assistant at the end of a completed cycle whose reply is [reply]. *)
Definition finished (inp : Inputs) (reply : pystr) (s : Assistant) : Assistant :=
  with_state
    (with_history s
       (truncate (max_history s)
          (conversation_history s ++ [assistant_message_of inp reply])))
    IDLE.

(** [metadata["source"]] *)
Definition source_of (md : Metadata) : option MetaVal := dict_get (u "source") md.

(** What the three replacements of the calculation skill do to one
    character. *)
Definition normalize_char (c : N) : N :=
  if (c =? 120)%N then 42%N          (* x *)
  else if (c =? 1093)%N then 42%N    (* Cyrillic х *)
  else if (c =? 44)%N then 46%N      (* , *)
  else c.

(** The events that are notifications of the user interface, as opposed to
    actions on the outside world. *)
Definition is_notification (e : Event) : bool :=
  match e with
  | StateChanged _ _ | ConversationUpdated _ | AiResponded _
  | ErrorReported _ | IdleRevertScheduled => true
  | _ => false
  end.

Definition notifications (es : list Event) : list Event := filter is_notification es.


(** The events of the model client. *)
Definition is_model_event (e : Event) : bool :=
  match e with
  | ModelCalled _ | ModelRequested _ => true
  | _ => false
  end.

(** The actions of the skills on the outside world. *)
Definition is_action (e : Event) : bool :=
  match e with
  | BrowserOpened _ | SystemCommand _ | FileStarted _ | WeatherRequested _ => true
  | _ => false
  end.

(** Every event of the command satisfies [p]. *)
Definition emits_only {A} (p : Event -> bool) (c : Cmd A) : Prop :=
  forall s, forallb p (events (c s)) = true.

(** The command raises only what the launcher raised. *)
Definition raises_launcher_only {A} (inp : Inputs) (c : Cmd A) : Prop :=
  forall s text, outcome (c s) = Raised text -> launch_error inp = Some text.

(** Every event of the command satisfies the property [P]. *)
Definition performs_only {A} (P : Event -> Prop) (c : Cmd A) : Prop :=
  forall s, Forall P (events (c s)).

(** The commands that the skills hand to the operating system: each is a
    fixed text, or a fixed text around the working directory. *)
Definition fixed_commands (inp : Inputs) : list pystr :=
  [ u "calc"; u "open -a Calculator"; u "gnome-calculator";
    u "notepad"; u "open -a TextEdit"; u "gedit";
    u "open " ++ dq ++ cwd inp ++ dq; u "xdg-open " ++ dq ++ cwd inp ++ dq ].

Definition is_fixed_command (inp : Inputs) (e : Event) : Prop :=
  match e with
  | SystemCommand cmd => In cmd (fixed_commands inp)
  | FileStarted path => path = cwd inp
  | _ => True
  end.

(** The key under which the reply to [text] is cached when the history
    ends with the user message of [text]. *)
Definition key_of_text (text : pystr) : pystr :=
  u "user:" ++ firstn 100 text ++ u "|" ++ u "user:" ++ firstn 100 text.

(** The messages of a request. *)
Definition chat_of (m : ConversationMessage) : ChatMessage :=
  {| msg_role := role m; msg_content := content m |}.

Definition system_message `{PyBuiltins} (context : option Context) : ChatMessage :=
  {| msg_role := u "system"; msg_content := _create_system_prompt context |}.

Definition user_chat (user_message : pystr) : ChatMessage :=
  {| msg_role := u "user"; msg_content := user_message |}.

(** ** Scenarios *)

Module Scenario.

Definition B : PyBuiltins := Fixture.builtins.

(** The defaults of [_load_config]: the credential is a placeholder. *)
Definition default_config : Config := {|
  cfg_api_key := Some (u "your_openrouter_api_key");
  cfg_model := default_model;
  cfg_user_name := u "Пользователь";
  cfg_location := u "Москва";
  cfg_interests := [u "технологии"; u "музыка"; u "спорт"];
  cfg_weather_key := []
|}.

Definition valid_key : pystr := u "sk-or-v1-0123456789abcdef".

Definition fresh : Assistant :=
  VoiceAIAssistant.__init__ default_config true (u "2025-01-01T12:00:00").

Definition online : Client := MistralClient.__init__ (Some valid_key) default_model.

Definition offline : Client :=
  MistralClient.__init__ (Some (u "your_openrouter_api_key")) default_model.

Definition answered (content : string) : HttpOutcome :=
  HttpResponse 200
    (BodyResult [{| choice_content := u content; finish_reason := Some (u "stop") |}]
       (Some [(u "total_tokens", 12%Z)]) None).

Definition ask (text : pystr) (net : HttpOutcome) : Call := {|
  call_message := text; call_history := []; call_context := None;
  call_max_tokens := 500; call_temperature := u "0.7"; call_net := net
|}.

(** A hundred calls with pairwise different messages, all answered. *)
Definition others : list Call :=
  map (fun i => ask (str_of_N (N.of_nat i)) (answered "ok")) (seq 0 100).

Definition noon : DateTime := {|
  fmt_time := u "12:00:00"; fmt_date := u "01 January 2025 года";
  fmt_short := u "12:00, 01.01.2025"; weekday := 2;
  isoformat := u "2025-01-01T12:00:00"
|}.

Definition calm : Inputs := {|
  user_time := u "2025-01-01T12:00:00"; skill_now := noon;
  assistant_time := u "2025-01-01T12:00:01";
  rand_weather := fun _ => 0%N; rand_joke := 0%N; rand_fallback := 0%N;
  platform := OtherPlatform; cwd := u "/home/user/voiceai";
  launch_error := None; weather_net := WeatherRaises;
  model_net := answered "ok"
|}.

(** The same, with a launcher that raises. *)
Definition no_browser : Inputs := {|
  user_time := user_time calm; skill_now := skill_now calm;
  assistant_time := assistant_time calm;
  rand_weather := rand_weather calm; rand_joke := rand_joke calm;
  rand_fallback := rand_fallback calm;
  platform := platform calm; cwd := cwd calm;
  launch_error := Some (u "could not locate runnable browser");
  weather_net := weather_net calm; model_net := model_net calm
|}.

Definition note : pystr := u "запомни это".

Definition note_result : SkillResult := {|
  success := true;
  response := u "Я запомнил это. (В реальной версии заметки сохраняются)";
  data := [(u "type", u "note"); (u "text", note)];
  should_continue := true
|}.

(** Fifty completed cycles: a history of a hundred messages. *)
Definition fifty_notes : list (Inputs * pystr) := repeat (calm, note) 50.

Definition busy : Assistant := after (_processing_loop (H := B) fifty_notes fresh).

(** A client whose cache is full. *)
Definition full : Client := after_calls (H := B) online others.

Definition first_question : Call := ask (u "q") (answered "A").
Definition same_question : Call := ask (u "q") (answered "B").

(** An evaluator that differs from the one of the fixture outside the
    allowed characters. *)
Definition strict_eval (e : pystr) : EvalOutcome :=
  if forallb (char_in allowed) e
  then Fixture.eval_lookup Fixture.eval_table e
  else EvalValue (u "unreachable").

(** A user document: a credential, and a user section that is not a
    dictionary. *)
Definition user_document : pydict (Json Setting) :=
  [ (u "mistral", JDict [(u "api_key", JAtom (SText valid_key))]);
    (u "user", JAtom (SText (u "Анна"))) ].

End Scenario.

(** * Properties *)

Arguments u : simpl never.
Arguments handle_outcome : simpl never.

(** ** Strings and dictionaries *)

Lemma starts_with_spec (p s : pystr) :
  starts_with p s = true <-> exists post, s = p ++ post.
Proof.
  revert s. induction p as [|a p IH]; intros s; simpl.
  - split; [intros _; now exists s | reflexivity].
  - destruct s as [|b s].
    + split; [discriminate | intros (post & Heq); discriminate].
    + rewrite andb_true_iff, N.eqb_eq, IH. split.
      * intros (-> & post & ->). now exists post.
      * intros (post & [= -> ->]). split; [reflexivity | now exists post].
Qed.

(** [needle in hay] holds exactly when [needle] is a substring of [hay]. *)
Lemma str_in_spec (needle hay : pystr) :
  str_in needle hay = true <-> exists pre post, hay = pre ++ needle ++ post.
Proof.
  induction hay as [|c t IH].
  - simpl. rewrite orb_false_r, starts_with_spec. split.
    + intros (post & Heq). now exists [], post.
    + intros (pre & post & Heq). destruct pre; [now exists post | discriminate].
  - cbn [str_in]. rewrite orb_true_iff, starts_with_spec, IH. split.
    + intros [(post & Heq) | (pre & post & ->)].
      * now exists [], post.
      * now exists (c :: pre), post.
    + intros (pre & post & Heq). destruct pre as [|c' pre]; simpl in Heq.
      * left. now exists post.
      * right. injection Heq as -> ->. now exists pre, post.
Qed.

Lemma str_eqb_true (a b : pystr) : str_eqb a b = true <-> a = b.
Proof.
  unfold str_eqb. destruct (list_eq_dec N.eq_dec a b); split; congruence.
Qed.

Lemma str_eqb_refl (a : pystr) : str_eqb a a = true.
Proof. now apply str_eqb_true. Qed.

Lemma str_eqb_false (a b : pystr) : str_eqb a b = false <-> a <> b.
Proof.
  unfold str_eqb. destruct (list_eq_dec N.eq_dec a b); split; congruence.
Qed.

Lemma dict_get_app_hit {V} (k : pystr) (v : V) (pre post : pydict V) :
  ~ In k (dict_keys pre) -> dict_get k (pre ++ (k, v) :: post) = Some v.
Proof.
  induction pre as [|[k' v'] pre IH]; simpl; intros Hk.
  - now rewrite str_eqb_refl.
  - destruct (str_eqb k' k) eqn:E.
    + apply str_eqb_true in E. tauto.
    + apply IH. tauto.
Qed.

Lemma dict_get_none_keys {V} (k : pystr) (d : pydict V) :
  dict_get k d = None <-> ~ In k (dict_keys d).
Proof.
  induction d as [|[k' v'] d IH]; simpl.
  - tauto.
  - destruct (str_eqb k' k) eqn:E.
    + apply str_eqb_true in E. split; [discriminate | tauto].
    + apply str_eqb_false in E. rewrite IH. tauto.
Qed.

Lemma dict_set_new {V} (k : pystr) (v : V) (d : pydict V) :
  dict_get k d = None -> dict_set k v d = d ++ [(k, v)].
Proof.
  induction d as [|[k' v'] d IH]; simpl; intros Hk.
  - reflexivity.
  - destruct (str_eqb k' k); [discriminate | now rewrite IH].
Qed.

Lemma dict_set_length {V} (k : pystr) (v : V) (d : pydict V) :
  length (dict_set k v d) = if dict_has k d then length d else S (length d).
Proof.
  unfold dict_has.
  induction d as [|[k' v'] d IH]; simpl.
  - reflexivity.
  - destruct (str_eqb k' k); simpl.
    + reflexivity.
    + rewrite IH. now destruct (dict_get k d).
Qed.

Lemma dict_set_length_le {V} (k : pystr) (v : V) (d : pydict V) :
  (length (dict_set k v d) <= S (length d))%nat.
Proof. rewrite dict_set_length. destruct (dict_has k d); lia. Qed.

Lemma dict_get_set_same {V} (k : pystr) (v : V) (d : pydict V) :
  dict_get k (dict_set k v d) = Some v.
Proof.
  induction d as [|[k' v'] d IH]; simpl.
  - now rewrite str_eqb_refl.
  - destruct (str_eqb k' k) eqn:E; simpl; now rewrite E.
Qed.

(** Storing under another key keeps an entry in place and adds at most one
    entry behind it. *)
Lemma dict_set_keeps {V} (k k' : pystr) (v v' : V) (pre post : pydict V) :
  k' <> k ->
  exists pre' post',
    dict_set k' v' (pre ++ (k, v) :: post) = pre' ++ (k, v) :: post' /\
    dict_keys pre' = dict_keys pre /\
    (length post' <= S (length post))%nat.
Proof.
  intros Hne.
  induction pre as [|[k0 v0] pre IH]; simpl.
  - destruct (str_eqb k k') eqn:E.
    + apply str_eqb_true in E. congruence.
    + exists [], (dict_set k' v' post). repeat split.
      apply dict_set_length_le.
  - destruct (str_eqb k0 k') eqn:E.
    + exists ((k0, v') :: pre), post. repeat split. lia.
    + destruct IH as (pre' & post' & Heq & Hkeys & Hlen).
      exists ((k0, v0) :: pre'), post'. rewrite Heq. repeat split; trivial.
      simpl. now rewrite Hkeys.
Qed.

(** ** Model client: availability, counters, status handling *)

Section ClientProperties.
Context `{PyBuiltins}.

Lemma generate_unavailable (c : Client) um h ctx mt temp net :
  available c = false ->
  generate_response c um h ctx mt temp net = unavailable_result c.
Proof. intros Hc. unfold generate_response. now rewrite Hc. Qed.

Lemma key_rejected_placeholder (s : pystr) :
  In s placeholder_keys -> key_rejected (Some s) = true.
Proof.
  intros Hin. simpl in Hin.
  repeat (destruct Hin as [<- | Hin]; [vm_compute; reflexivity |]).
  contradiction.
Qed.

Lemma key_rejected_stripped (s : pystr) :
  In (strip s) placeholder_keys \/ (length (strip s) < 10)%nat ->
  key_rejected (Some s) = true.
Proof.
  intros Hs. destruct s as [|a s]; [reflexivity |].
  unfold key_rejected. apply orb_true_iff.
  destruct Hs as [Hin | Hlen].
  - left. apply existsb_exists. exists (strip (a :: s)). split; trivial.
    apply str_eqb_refl.
  - right. now apply Nat.ltb_lt.
Qed.

(** C5. A client built from a missing credential, from one of the
    placeholder credentials, or from a credential whose stripped form is
    shorter than 10 characters is not available, and every call of
    [generate_response] on it returns the fixed service-unavailable message
    with empty metadata, sends no request and leaves the client as it
    is. *)
Theorem C5_no_credential_no_service (k : option pystr) (m : pystr) :
  (k = None \/
   exists s, k = Some s /\
     (s = [] \/ In s placeholder_keys \/ In (strip s) placeholder_keys \/
      (length (strip s) < 10)%nat)) ->
  let c := MistralClient.__init__ k m in
  is_available c = false /\
  forall um h ctx mt temp net,
    let r := generate_response c um h ctx mt temp net in
    reply r = MSG_UNAVAILABLE /\ metadata r = [] /\ sent r = [] /\
    client_after r = c.
Proof.
  intros Hk c.
  assert (Hrej : key_rejected k = true).
  { destruct Hk as [-> | (s & -> & [-> | [Hin | Hs]])]; trivial.
    - now apply key_rejected_placeholder.
    - now apply key_rejected_stripped. }
  assert (Hav : available c = false) by (simpl; now rewrite Hrej).
  split; [exact Hav |].
  intros um h ctx mt temp net r. subst r.
  rewrite (generate_unavailable c um h ctx mt temp net Hav).
  repeat split.
Qed.

Lemma requests_count_error (c : Client) :
  requests (stats (count_error c)) = requests (stats c).
Proof. reflexivity. Qed.

Lemma add_to_cache_stats (c c' : Client) key response :
  _add_to_cache c key response = Some c' -> stats c' = stats c.
Proof.
  unfold _add_to_cache.
  destruct (cache_size c <=? _)%Z; [destruct (response_cache c) |];
    intros [= <-]; reflexivity.
Qed.

Lemma add_to_cache_frame (c c' : Client) key response :
  _add_to_cache c key response = Some c' ->
  available c' = available c /\ cache_size c' = cache_size c.
Proof.
  unfold _add_to_cache.
  destruct (cache_size c <=? _)%Z; [destruct (response_cache c) |];
    intros [= <-]; split; reflexivity.
Qed.

(** The branch on the answer of the service never touches the request
    counter. *)
Lemma handle_outcome_requests (c : Client) key req net :
  requests (stats (client_after (handle_outcome c key req net))) =
  requests (stats c).
Proof.
  unfold handle_outcome.
  destruct net as [[| |text] | status body]; simpl; trivial.
  destruct (status =? 200)%Z.
  - destruct body as [[|first rest] usage served_by | text]; simpl; trivial.
    destruct (_add_to_cache _ _ _) as [c2|] eqn:E; simpl; trivial.
    now rewrite (add_to_cache_stats _ _ _ E).
  - destruct (status =? 401)%Z; [reflexivity |].
    destruct (status =? 429)%Z; reflexivity.
Qed.

(** C8, amended. Every call of [generate_response] on an available client
    increments the request counter by exactly one, whatever the cache holds
    and whatever the service answers or raises: the request is counted
    before the outcome is known. *)
Theorem C8_request_counted_when_available (c : Client) um h ctx mt temp net :
  is_available c = true ->
  requests (stats (client_after (generate_response c um h ctx mt temp net))) =
  (requests (stats c) + 1)%Z.
Proof.
  unfold is_available. intros Hav. unfold generate_response. rewrite Hav. simpl.
  destruct (dict_get _ (response_cache c)); simpl; trivial.
  now rewrite handle_outcome_requests.
Qed.

(** C9. After a cache miss on an available client, status 401 gives the
    fixed invalid-credential message and status 429 the fixed rate-limited
    message, both without a change of the error counter; any other status
    than 200 gives the message that embeds the status code and increments
    the error counter by one. *)
Theorem C9_status_handling (c : Client) um h ctx mt temp status body :
  is_available c = true ->
  dict_get (_create_cache_key (_prepare_messages um h ctx)) (response_cache c) = None ->
  let r := generate_response c um h ctx mt temp (HttpResponse status body) in
  (status = 401%Z ->
     reply r = MSG_BAD_KEY /\ metadata r = [] /\
     errors (stats (client_after r)) = errors (stats c)) /\
  (status = 429%Z ->
     reply r = MSG_RATE_LIMIT /\ metadata r = [] /\
     errors (stats (client_after r)) = errors (stats c)) /\
  (status <> 200%Z -> status <> 401%Z -> status <> 429%Z ->
     reply r = u "Ошибка сервиса AI (код: " ++ str_of_Z status ++ u ")" /\
     metadata r = [] /\
     errors (stats (client_after r)) = (errors (stats c) + 1)%Z).
Proof.
  intros Hav Hmiss r. subst r. unfold is_available in Hav.
  unfold generate_response. rewrite Hav. cbn [negb].
  change (response_cache (count_request c)) with (response_cache c).
  cbv zeta. rewrite Hmiss. unfold handle_outcome.
  repeat split; intros; subst; simpl; trivial.
  all: repeat match goal with
       | Hne : ?s <> ?n |- context [(?s =? ?n)%Z] =>
           rewrite (proj2 (Z.eqb_neq s n) Hne)
       end; reflexivity.
Qed.

End ClientProperties.

(** ** Model client: the response cache *)

Section CacheProperties.
Context `{PyBuiltins}.

Lemma handle_outcome_frame (c : Client) key req net :
  let c' := client_after (handle_outcome c key req net) in
  available c' = available c /\ cache_size c' = cache_size c.
Proof.
  unfold handle_outcome.
  destruct net as [[| |text] | status body]; simpl; auto.
  destruct (status =? 200)%Z.
  - destruct body as [[|first rest] usage served_by | text]; simpl; auto.
    destruct (_add_to_cache _ _ _) as [c2|] eqn:E; simpl; auto.
    apply add_to_cache_frame in E. simpl in E. exact E.
  - destruct (status =? 401)%Z; [auto |].
    destruct (status =? 429)%Z; auto.
Qed.

Lemma call_frame (c : Client) (x : Call) :
  let c' := client_after (call_on c x) in
  available c' = available c /\ cache_size c' = cache_size c.
Proof.
  unfold call_on, generate_response.
  destruct (available c) eqn:Hav; cbn [negb]; cbv zeta.
  2: { simpl. auto. }
  change (response_cache (count_request c)) with (response_cache c).
  destruct (dict_get _ (response_cache c)).
  - simpl. auto.
  - match goal with |- context [handle_outcome ?c1 ?k ?r ?n] =>
      destruct (handle_outcome_frame c1 k r n) as [Ha Hs]
    end.
    simpl in Ha, Hs. rewrite Hav in Ha. auto.
Qed.

Lemma after_calls_frame (calls : list Call) (c : Client) :
  available (after_calls c calls) = available c /\
  cache_size (after_calls c calls) = cache_size c.
Proof.
  revert c. induction calls as [|x calls IH]; intros c; simpl; auto.
  destruct (IH (client_after (call_on c x))) as [Ha Hs].
  destruct (call_frame c x) as [Ha' Hs']. simpl in Ha', Hs'.
  split; congruence.
Qed.

(** How [_add_to_cache] changes the dictionary. *)
Lemma add_to_cache_spec (c : Client) key response :
  (1 <= cache_size c)%Z ->
  exists c',
    _add_to_cache c key response = Some c' /\
    cache_size c' = cache_size c /\
    ((Z.of_nat (length (response_cache c)) <= cache_size c)%Z ->
     (Z.of_nat (length (response_cache c')) <= cache_size c')%Z) /\
    (Z.of_nat (length (response_cache c)) = cache_size c ->
     dict_get key (response_cache c) = None ->
     exists oldest rest,
       response_cache c = oldest :: rest /\
       response_cache c' = rest ++ [(key, response)]).
Proof.
  intros Hsize. unfold _add_to_cache.
  destruct (cache_size c <=? Z.of_nat (length (response_cache c)))%Z eqn:Hfull.
  - apply Z.leb_le in Hfull.
    destruct (response_cache c) as [|oldest rest] eqn:Hcache.
    + simpl in Hfull. lia.
    + eexists. split; [reflexivity |]. simpl. repeat split.
      * intros Hle. pose proof (dict_set_length_le key response rest).
        simpl in Hle. lia.
      * intros _ Hmiss. exists oldest, rest. split; trivial.
        apply dict_set_new.
        simpl in Hmiss. destruct oldest as [k0 v0].
        destruct (str_eqb k0 key); [discriminate | assumption].
  - apply Z.leb_gt in Hfull.
    eexists. split; [reflexivity |]. simpl. repeat split.
    + intros _. pose proof (dict_set_length_le key response (response_cache c)). lia.
    + lia.
Qed.

Lemma handle_outcome_bound (c : Client) key req net :
  (1 <= cache_size c)%Z ->
  (Z.of_nat (length (response_cache c)) <= cache_size c)%Z ->
  (Z.of_nat (length (response_cache (client_after (handle_outcome c key req net))))
   <= cache_size c)%Z.
Proof.
  intros Hsize Hle. unfold handle_outcome.
  destruct net as [[| |text] | status body]; simpl; trivial.
  destruct (status =? 200)%Z.
  - destruct body as [[|first rest] usage served_by | text]; simpl; trivial.
    match goal with |- context [_add_to_cache ?c1 ?k ?v] =>
      destruct (add_to_cache_spec c1 k v Hsize) as (c2 & -> & Hcs & Hb & _)
    end.
    simpl. simpl in Hcs, Hb. rewrite <- Hcs. now apply Hb.
  - destruct (status =? 401)%Z; [trivial |].
    destruct (status =? 429)%Z; trivial.
Qed.

Lemma call_bound (c : Client) (x : Call) :
  (1 <= cache_size c)%Z ->
  (Z.of_nat (length (response_cache c)) <= cache_size c)%Z ->
  (Z.of_nat (length (response_cache (client_after (call_on c x)))) <= cache_size c)%Z.
Proof.
  intros Hsize Hle. unfold call_on, generate_response.
  destruct (available c); simpl; trivial.
  destruct (dict_get _ (response_cache c)); simpl; trivial.
  exact (handle_outcome_bound (count_request c) _ _ _ Hsize Hle).
Qed.

Lemma after_calls_bound (calls : list Call) (c : Client) :
  (1 <= cache_size c)%Z ->
  (Z.of_nat (length (response_cache c)) <= cache_size c)%Z ->
  (Z.of_nat (length (response_cache (after_calls c calls))) <= cache_size c)%Z.
Proof.
  revert c. induction calls as [|x calls IH]; intros c Hsize Hle; simpl; trivial.
  destruct (call_frame c x) as [_ Hs]. simpl in Hs.
  rewrite <- Hs. apply IH; rewrite Hs; trivial.
  now apply call_bound.
Qed.

Lemma call_hit (c : Client) (x : Call) (cached : pystr) :
  available c = true ->
  dict_get (_create_cache_key (messages_of x)) (response_cache c) = Some cached ->
  call_on c x =
  {| reply := cached; metadata := [(u "cached", MBool true)];
     client_after := count_request c; sent := [] |}.
Proof.
  intros Hav Hhit. unfold call_on, generate_response. rewrite Hav. cbn [negb].
  change (response_cache (count_request c)) with (response_cache c).
  cbv zeta. unfold messages_of in Hhit. now rewrite Hhit.
Qed.

(** C7. The response cache of a client never holds more entries than its
    capacity, which is 100 for every client built by the constructor;
    [_add_to_cache] keeps the bound, and on a full cache the insertion of a
    new key removes exactly the first entry of the dictionary, the oldest
    inserted one, and places the new entry last. A cache hit leaves the
    dictionary and its order as they are. *)
Theorem C7_cache_capacity :
  (forall k m calls,
     let c := after_calls (MistralClient.__init__ k m) calls in
     cache_size c = 100%Z /\ (length (response_cache c) <= 100)%nat) /\
  (forall c key response,
     (1 <= cache_size c)%Z ->
     (Z.of_nat (length (response_cache c)) <= cache_size c)%Z ->
     exists c',
       _add_to_cache c key response = Some c' /\
       cache_size c' = cache_size c /\
       (Z.of_nat (length (response_cache c')) <= cache_size c')%Z /\
       (Z.of_nat (length (response_cache c)) = cache_size c ->
        dict_get key (response_cache c) = None ->
        exists oldest rest,
          response_cache c = oldest :: rest /\
          response_cache c' = rest ++ [(key, response)])) /\
  (forall c x cached,
     is_available c = true ->
     dict_get (_create_cache_key (messages_of x)) (response_cache c) = Some cached ->
     response_cache (client_after (call_on c x)) = response_cache c).
Proof.
  repeat split.
  - apply (after_calls_frame calls (MistralClient.__init__ k m)).
  - pose proof (after_calls_bound calls (MistralClient.__init__ k m)) as Hb.
    simpl in Hb. lia.
  - intros c key response Hsize Hle.
    destruct (add_to_cache_spec c key response Hsize) as (c' & Hadd & Hcs & Hb & Hev).
    exists c'. auto.
  - intros c x cached Hav Hhit. unfold is_available in Hav.
    now rewrite (call_hit c x Hav Hhit).
Qed.

End CacheProperties.

(** ** Model client: reuse of a cached reply *)

Lemma entry_within_get {V} (k : pystr) (v : V) (m : nat) (d : pydict V) :
  entry_within k v m d -> dict_get k d = Some v.
Proof. intros (pre & post & -> & Hk & _). now apply dict_get_app_hit. Qed.

Lemma entry_within_weaken {V} (k : pystr) (v : V) (m m' : nat) (d : pydict V) :
  (m <= m')%nat -> entry_within k v m d -> entry_within k v m' d.
Proof. intros Hm (pre & post & Hd & Hk & Hl). exists pre, post. repeat split; trivial. lia. Qed.

Section ReuseProperties.
Context `{PyBuiltins}.

Lemma cache_key_of_tail (messages : list ChatMessage) :
  _create_cache_key messages =
  str_join (u "|") (map (fun rc => fst rc ++ u ":" ++ snd rc) (message_tail messages)).
Proof. unfold _create_cache_key, message_tail. now rewrite map_map. Qed.

Lemma add_to_cache_keeps_entry (c c' : Client) k v m key response :
  entry_within k v m (response_cache c) ->
  (Z.of_nat m + 1 < cache_size c)%Z ->
  key <> k ->
  _add_to_cache c key response = Some c' ->
  entry_within k v (S m) (response_cache c').
Proof.
  intros (pre & post & Hd & Hk & Hl) Hroom Hne. unfold _add_to_cache.
  destruct (cache_size c <=? Z.of_nat (length (response_cache c)))%Z eqn:Hfull.
  - apply Z.leb_le in Hfull. rewrite Hd in *.
    destruct pre as [|oldest pre]; simpl.
    + simpl in Hfull. lia.
    + intros [= <-]. simpl.
      destruct (dict_set_keeps v response pre post Hne) as (pre' & post' & -> & Hkeys & Hlen).
      exists pre', post'. repeat split; [| lia].
      rewrite Hkeys. simpl in Hk. tauto.
  - intros [= <-]. simpl. rewrite Hd.
    destruct (dict_set_keeps v response pre post Hne) as (pre' & post' & -> & Hkeys & Hlen).
    exists pre', post'. repeat split; [| lia].
    now rewrite Hkeys.
Qed.

Lemma handle_outcome_keeps_entry (c : Client) k v m key req net :
  entry_within k v m (response_cache c) ->
  (Z.of_nat m + 1 < cache_size c)%Z ->
  key <> k ->
  entry_within k v (S m) (response_cache (client_after (handle_outcome c key req net))).
Proof.
  intros Hin Hroom Hne.
  pose proof (entry_within_weaken (Nat.le_succ_diag_r m) Hin) as Hin'.
  unfold handle_outcome.
  destruct net as [[| |text] | status body]; simpl; trivial.
  destruct (status =? 200)%Z.
  - destruct body as [[|first rest] usage served_by | text]; simpl; trivial.
    destruct (_add_to_cache _ _ _) as [c2|] eqn:E; simpl; trivial.
    eapply add_to_cache_keeps_entry; [ | | exact Hne | exact E]; simpl; trivial.
  - destruct (status =? 401)%Z; [trivial |].
    destruct (status =? 429)%Z; trivial.
Qed.

(** One call in between pushes a cached entry at most one place towards
    the front and does not remove it while there is room. *)
Lemma call_keeps_entry (c : Client) (x : Call) k v m :
  entry_within k v m (response_cache c) ->
  (Z.of_nat m + 1 < cache_size c)%Z ->
  entry_within k v (S m) (response_cache (client_after (call_on c x))).
Proof.
  intros Hin Hroom.
  pose proof (entry_within_weaken (Nat.le_succ_diag_r m) Hin) as Hin'.
  unfold call_on, generate_response.
  destruct (available c); cbn [negb]; cbv zeta; [| exact Hin'].
  change (response_cache (count_request c)) with (response_cache c).
  destruct (dict_get _ (response_cache c)) eqn:Hget; [exact Hin' |].
  apply handle_outcome_keeps_entry; trivial.
  intros E. rewrite E, (entry_within_get Hin) in Hget. discriminate.
Qed.

Lemma after_calls_keeps_entry (calls : list Call) (c : Client) k v m :
  entry_within k v m (response_cache c) ->
  (Z.of_nat (m + length calls) < cache_size c)%Z ->
  entry_within k v (m + length calls) (response_cache (after_calls c calls)).
Proof.
  revert c m. induction calls as [|x calls IH]; intros c m Hin Hroom; simpl.
  - now rewrite Nat.add_0_r.
  - simpl in Hroom. rewrite <- Nat.add_succ_comm. apply IH.
    + apply call_keeps_entry; trivial. lia.
    + destruct (call_frame c x) as [_ Hs]. simpl in Hs. rewrite Hs. lia.
Qed.

(** A call that misses the cache and is answered with status 200 and at
    least one choice returns the stripped content and stores it last. *)
Lemma call_success (c : Client) (x : Call) first_choice more usage served_by :
  available c = true ->
  (1 <= cache_size c)%Z ->
  dict_get (_create_cache_key (messages_of x)) (response_cache c) = None ->
  call_net x = HttpResponse 200 (BodyResult (first_choice :: more) usage served_by) ->
  let r := call_on c x in
  reply r = strip (choice_content first_choice) /\
  dict_get (u "cached") (metadata r) = Some (MBool false) /\
  length (sent r) = 1%nat /\
  entry_within (_create_cache_key (messages_of x)) (reply r) 0
    (response_cache (client_after r)).
Proof.
  intros Hav Hsize Hmiss Hnet r. subst r.
  unfold call_on, generate_response. rewrite Hav. cbn [negb]. cbv zeta.
  change (response_cache (count_request c)) with (response_cache c).
  unfold messages_of in Hmiss. rewrite Hmiss, Hnet.
  unfold handle_outcome. cbn [Z.eqb Pos.eqb].
  match goal with |- context [_add_to_cache ?c1 ?k ?v] =>
    destruct (add_to_cache_spec c1 k v Hsize) as (c2 & Hadd & _ & _ & _);
    rewrite Hadd; pose proof Hadd as Hshape
  end.
  cbn [reply metadata sent client_after]. repeat split.
  unfold _add_to_cache in Hshape.
  unfold messages_of.
  set (key := _create_cache_key _) in *.
  set (v := strip _) in *.
  cbn [response_cache count_tokens count_request with_stats cache_size] in Hshape.
  destruct (cache_size c <=? _)%Z.
  - destruct (response_cache c) as [|[k0 v0] rest] eqn:Hc; [discriminate |].
    injection Hshape as <-. cbn [response_cache with_cache].
    simpl in Hmiss. destruct (str_eqb k0 key); [discriminate |].
    rewrite (dict_set_new _ _ _ Hmiss).
    exists rest, []. repeat split; trivial.
    now apply dict_get_none_keys.
  - injection Hshape as <-. cbn [response_cache with_cache].
    rewrite (dict_set_new _ _ _ Hmiss).
    exists (response_cache c), []. repeat split; trivial.
    now apply dict_get_none_keys.
Qed.

(** C4, amended. Let a call on an available client miss the cache, be
    answered with status 200 and a choice, and so store its reply. If fewer
    than [cache_size] other calls are made before a second call whose last
    two messages have the same roles and the same first 100 characters of
    content, the second call returns the stored reply with the metadata
    [{cached: true}] and sends no request. *)
Theorem C4_cached_reply_reused (c : Client) (first second : Call)
    (between : list Call) first_choice more usage served_by :
  is_available c = true ->
  (1 <= cache_size c)%Z ->
  dict_get (_create_cache_key (messages_of first)) (response_cache c) = None ->
  call_net first = HttpResponse 200 (BodyResult (first_choice :: more) usage served_by) ->
  message_tail (messages_of first) = message_tail (messages_of second) ->
  (Z.of_nat (length between) < cache_size c)%Z ->
  let r1 := call_on c first in
  let r2 := call_on (after_calls (client_after r1) between) second in
  dict_get (_create_cache_key (messages_of first)) (response_cache (client_after r1))
    = Some (reply r1) /\
  reply r2 = reply r1 /\
  metadata r2 = [(u "cached", MBool true)] /\
  sent r2 = [].
Proof.
  intros Hav Hsize Hmiss Hnet Htail Hroom r1 r2.
  unfold is_available in Hav.
  destruct (call_success c first Hav Hsize Hmiss Hnet) as (_ & _ & _ & Hin).
  fold r1 in Hin.
  split; [exact (entry_within_get Hin) |].
  destruct (call_frame c first) as [Hav1 Hs1]. simpl in Hav1, Hs1. fold r1 in Hav1, Hs1.
  assert (Hin2 : entry_within (_create_cache_key (messages_of second)) (reply r1)
                   (0 + length between)
                   (response_cache (after_calls (client_after r1) between))).
  { rewrite (cache_key_of_tail (messages_of second)), <- Htail, <- cache_key_of_tail.
    apply after_calls_keeps_entry; trivial. rewrite Hs1. exact Hroom. }
  destruct (after_calls_frame between (client_after r1)) as [Hav2 _].
  subst r2. rewrite (call_hit _ second (cached := reply r1)).
  - repeat split.
  - congruence.
  - exact (entry_within_get Hin2).
Qed.

End ReuseProperties.

(** ** Commands *)

Lemma step_cases {A} (c : Cmd A) (s : Assistant) :
  (exists a s' ev, returns c s a s' ev) \/ (exists text s' ev, raises c s text s' ev).
Proof.
  unfold returns, raises. destruct (c s) as [[a | text] s' ev]; eauto.
Qed.

Lemma returns_bind {A B} (c : Cmd A) (k : A -> Cmd B) s a s1 e1 b s2 e2 :
  returns c s a s1 e1 -> returns (k a) s1 b s2 e2 ->
  returns (bind c k) s b s2 (e1 ++ e2).
Proof. unfold returns, bind. intros -> Hk. simpl. now rewrite Hk. Qed.

Lemma raises_bind_first {A B} (c : Cmd A) (k : A -> Cmd B) s text s1 e1 :
  raises c s text s1 e1 -> raises (bind c k) s text s1 e1.
Proof. unfold raises, bind. now intros ->. Qed.

Lemma raises_bind_second {A B} (c : Cmd A) (k : A -> Cmd B) s a s1 e1 text s2 e2 :
  returns c s a s1 e1 -> raises (k a) s1 text s2 e2 ->
  raises (bind c k) s text s2 (e1 ++ e2).
Proof. unfold returns, raises, bind. intros -> Hk. simpl. now rewrite Hk. Qed.

Lemma returns_ret {A} (a : A) s : returns (ret a) s a s [].
Proof. reflexivity. Qed.

Lemma returns_emit (e : Event) s : returns (emit e) s tt s [e].
Proof. reflexivity. Qed.

Lemma returns_try {A} (body : Cmd A) handler s a s1 e1 :
  returns body s a s1 e1 -> returns (try_except body handler) s a s1 e1.
Proof. unfold returns, try_except. now intros ->. Qed.

Lemma returns_try_handler {A} (body : Cmd A) handler s text s1 e1 a s2 e2 :
  raises body s text s1 e1 -> returns (handler text) s1 a s2 e2 ->
  returns (try_except body handler) s a s2 (e1 ++ e2).
Proof. unfold returns, raises, try_except. intros -> Hh. simpl. now rewrite Hh. Qed.

Lemma returns_change_state (st : AssistantState) s :
  returns (_change_state st) s tt (with_state s st) [StateChanged (state s) st].
Proof. reflexivity. Qed.

Lemma returns_append (m : ConversationMessage) s :
  returns (append_message m) s tt (with_history s (conversation_history s ++ [m])) [].
Proof. reflexivity. Qed.

Lemma returns_trim s :
  returns trim_history s tt
    (with_history s (truncate (max_history s) (conversation_history s))) [].
Proof. reflexivity. Qed.

Lemma returns_handle_error (error : pystr) s :
  returns (_handle_error error) s tt (with_state s ERROR)
    [StateChanged (state s) ERROR; ErrorReported error; IdleRevertScheduled].
Proof. reflexivity. Qed.

Lemma returns_inj {A} (c : Cmd A) s a s1 e1 a' s1' e1' :
  returns c s a s1 e1 -> returns c s a' s1' e1' -> a = a' /\ s1 = s1' /\ e1 = e1'.
Proof. unfold returns. intros -> [= -> -> ->]. auto. Qed.

Lemma returns_not_raises {A} (c : Cmd A) s a s1 e1 text s2 e2 :
  returns c s a s1 e1 -> raises c s text s2 e2 -> False.
Proof. unfold returns, raises. intros ->. discriminate. Qed.

Arguments truncate : simpl never.
Arguments generate_response : simpl never.

(** ** Skills leave the assistant as it is, except for the cleared
    history *)

Section SkillFrame.
Context `{PyBuiltins}.

Lemma keeps_ret {A} (a : A) : keeps_state (ret a).
Proof. intros s. reflexivity. Qed.

Lemma keeps_emit (e : Event) : keeps_state (emit e).
Proof. intros s. reflexivity. Qed.

Lemma keeps_raise {A} (text : pystr) : keeps_state (raise (A := A) text).
Proof. intros s. reflexivity. Qed.

Lemma keeps_get : keeps_state get.
Proof. intros s. reflexivity. Qed.

Lemma keeps_bind {A B} (c : Cmd A) (k : A -> Cmd B) :
  keeps_state c -> (forall a, keeps_state (k a)) -> keeps_state (bind c k).
Proof.
  intros Hc Hk s. unfold bind. specialize (Hc s).
  destruct (c s) as [[a | text] s1 e1]; simpl in *; subst; trivial.
  apply Hk.
Qed.

Lemma keeps_try {A} (body : Cmd A) (handler : pystr -> Cmd A) :
  keeps_state body -> (forall text, keeps_state (handler text)) ->
  keeps_state (try_except body handler).
Proof.
  intros Hb Hh s. unfold try_except. specialize (Hb s).
  destruct (body s) as [[a | text] s1 e1]; simpl in *; subst; trivial.
  apply Hh.
Qed.

Lemma keeps_launch inp (e : Event) : keeps_state (launch inp e).
Proof. intros s. unfold launch. now destruct (launch_error inp). Qed.

Ltac keeps :=
  repeat first
    [ apply keeps_ret | apply keeps_emit | apply keeps_raise | apply keeps_get
    | apply keeps_launch
    | apply keeps_bind; [| intros ?]
    | apply keeps_try; [| intros ?]
    | progress cbv beta zeta
    | match goal with
      | |- keeps_state (if ?b then _ else _) => destruct b
      | |- keeps_state (match ?x with _ => _ end) => destruct x
      end ].

Lemma skill_time_after inp text : keeps_state (_skill_time inp text).
Proof. intros s. reflexivity. Qed.

Lemma skill_weather_after inp text : keeps_state (_skill_weather inp text).
Proof. unfold _skill_weather. keeps. Qed.

Lemma skill_system_after inp text : keeps_state (_skill_system inp text).
Proof. unfold _skill_system, by_platform. keeps. Qed.

Lemma skill_web_after inp text : keeps_state (_skill_web inp text).
Proof. unfold _skill_web. keeps. Qed.

Lemma skill_entertainment_after inp text :
  keeps_state (_skill_entertainment inp text).
Proof. unfold _skill_entertainment. keeps. Qed.

Lemma skill_clear_returns text s :
  returns (_skill_clear_history text) s cleared_result (with_history s []) [].
Proof. reflexivity. Qed.

Lemma check_skills_after inp text s :
  after (_check_skills inp text s) = s \/
  returns (_check_skills inp text) s cleared_result (with_history s []) [].
Proof.
  unfold _check_skills.
  destruct (any_in kw_time _); [left; apply skill_time_after |].
  destruct (any_in kw_weather _); [left; apply skill_weather_after |].
  destruct (any_in kw_system _); [left; apply skill_system_after |].
  destruct (any_in kw_web _); [left; apply skill_web_after |].
  destruct (any_in kw_calculation _); [left; reflexivity |].
  destruct (any_in kw_entertainment _); [left; apply skill_entertainment_after |].
  destruct (any_in kw_note _); [left; reflexivity |].
  destruct (any_in kw_reminder _); [left; reflexivity |].
  destruct (any_in kw_clear _); [right; apply skill_clear_returns |].
  left; reflexivity.
Qed.

End SkillFrame.

(** ** One processing cycle *)

Section Cycle.
Context `{PyBuiltins}.

Arguments _check_skills : simpl never.
Arguments _get_fallback_response : simpl never.

Lemma returns_emit_all (es : list Event) s : returns (emit_all es) s tt s es.
Proof.
  induction es as [|e es IH]; [reflexivity |].
  simpl. change (e :: es) with ([e] ++ es).
  eapply returns_bind; [apply returns_emit | exact IH].
Qed.

Lemma source_set (v : MetaVal) (md : Metadata) :
  source_of (dict_set (u "source") v md) = Some v.
Proof. apply dict_get_set_same. Qed.

(** First row: the skill answered and asked not to continue. *)
Lemma compose_skill_only inp text sr s :
  success sr = true -> should_continue sr = false ->
  returns (compose_reply inp text sr) s (response sr, skill_metadata sr) s [].
Proof. intros Hs Hc. unfold compose_reply. rewrite Hs, Hc. reflexivity. Qed.

(** Second row: the model is asked. *)
Lemma compose_with_model inp text sr s c :
  success sr = false \/ should_continue sr = true ->
  mistral_client s = Some c -> is_available c = true ->
  let m := generate_response c text (conversation_history s) (Some (context s))
             500 (u "0.7") (model_net inp) in
  returns (compose_reply inp text sr) s
    (if success sr
     then (response sr ++ SEPARATOR ++ reply m,
           dict_set (u "source") (MStr (u "hybrid")) (metadata m))
     else (reply m, dict_set (u "source") (MStr (u "ai")) (metadata m)))
    (with_client s (Some (client_after m)))
    (ModelCalled text :: map ModelRequested (sent m)).
Proof.
  intros Hrow Hc Hav m. unfold compose_reply.
  replace (success sr && negb (should_continue sr)) with false
    by (destruct Hrow as [-> | ->]; [reflexivity | now rewrite andb_false_r]).
  unfold returns, bind, get. cbn [outcome after events]. rewrite Hc, Hav.
  fold m. unfold put, emit. cbn [outcome after events].
  pose proof (returns_emit_all (map ModelRequested (sent m))
                (with_client s (Some (client_after m)))) as Hall.
  unfold returns in Hall. rewrite Hall. cbn [outcome after events].
  destruct (success sr); unfold ret; cbn [outcome after events];
    now rewrite app_nil_r.
Qed.

(** Third row: no model. *)
Lemma compose_without_model inp text sr s :
  success sr = false \/ should_continue sr = true ->
  mistral_client s = None \/
  (exists c, mistral_client s = Some c /\ is_available c = false) ->
  returns (compose_reply inp text sr) s
    (if success sr
     then (response sr, skill_metadata sr)
     else (_get_fallback_response inp (context s) text,
           [(u "source", MStr (u "fallback"))]))
    s [].
Proof.
  intros Hrow Hno. unfold compose_reply.
  replace (success sr && negb (should_continue sr)) with false
    by (destruct Hrow as [-> | ->]; [reflexivity | now rewrite andb_false_r]).
  unfold returns, bind, get. cbn [outcome after events].
  assert (Hlocal : local_reply inp text sr s =
            {| outcome := Returned
                 (if success sr
                  then (response sr, skill_metadata sr)
                  else (_get_fallback_response inp (context s) text,
                        [(u "source", MStr (u "fallback"))]));
               after := s; events := [] |}).
  { unfold local_reply, bind, get, ret. cbn [outcome after events].
    now destruct (success sr). }
  destruct Hno as [-> | (c & -> & ->)]; now rewrite Hlocal.
Qed.

Lemma compose_returns inp text sr s :
  exists reply md s' ev,
    returns (compose_reply inp text sr) s (reply, md) s' ev /\
    max_history s' = max_history s /\
    conversation_history s' = conversation_history s.
Proof.
  destruct (success sr && negb (should_continue sr)) eqn:Hrow.
  - apply andb_true_iff in Hrow. destruct Hrow as [Hs Hc].
    apply negb_true_iff in Hc.
    do 4 eexists. split; [now apply compose_skill_only | auto].
  - assert (Hrow' : success sr = false \/ should_continue sr = true).
    { destruct (success sr), (should_continue sr); auto; discriminate. }
    destruct (mistral_client s) as [c |] eqn:Hc.
    + destruct (is_available c) eqn:Hav.
      * pose proof (compose_with_model inp text sr s Hrow' Hc Hav) as Hm.
        cbv zeta in Hm.
        destruct (success sr); do 4 eexists; (split; [exact Hm | auto]).
      * pose proof (compose_without_model inp text sr s Hrow'
                      (or_intror (ex_intro _ c (conj Hc Hav)))) as Hm.
        destruct (success sr); do 4 eexists; (split; [exact Hm | auto]).
    + pose proof (compose_without_model inp text sr s Hrow' (or_introl Hc)) as Hm.
      destruct (success sr); do 4 eexists; (split; [exact Hm | auto]).
Qed.

(** The steps of the cycle before the skills are consulted. *)
Ltac enter_cycle :=
  eapply returns_bind; [apply returns_change_state |];
  eapply returns_bind; [apply returns_append |];
  eapply returns_bind; [apply returns_emit |].

(** A cycle in which the skills return runs to its end. *)
Lemma process_command_completed inp text a sr s2 e2 reply md s3 e3 :
  returns (_check_skills inp text) (entered inp text a) sr s2 e2 ->
  returns (compose_reply inp text sr) s2 (reply, md) s3 e3 ->
  returns (_process_command inp text) a tt (finished inp reply s3)
    ([StateChanged (state a) PROCESSING;
      ConversationUpdated (user_message_of inp text)] ++ e2 ++ e3 ++
     [ConversationUpdated (assistant_message_of inp reply); AiResponded md;
      StateChanged (state s3) IDLE]).
Proof.
  intros Hcheck Hcompose. unfold _process_command. apply returns_try.
  change ([StateChanged (state a) PROCESSING;
           ConversationUpdated (user_message_of inp text)] ++ e2 ++ e3 ++
          [ConversationUpdated (assistant_message_of inp reply); AiResponded md;
           StateChanged (state s3) IDLE])
    with ([StateChanged (state a) PROCESSING] ++ [] ++
          [ConversationUpdated (user_message_of inp text)] ++ e2 ++ e3 ++ [] ++
          [ConversationUpdated (assistant_message_of inp reply)] ++
          [AiResponded md] ++ [] ++ [StateChanged (state s3) IDLE]).
  enter_cycle.
  eapply returns_bind; [exact Hcheck |].
  eapply returns_bind; [exact Hcompose |].
  eapply returns_bind; [apply returns_append |].
  eapply returns_bind; [apply returns_emit |].
  eapply returns_bind; [apply returns_emit |].
  eapply returns_bind; [apply returns_trim |].
  match goal with
  | |- returns _ ?s _ _ _ => exact (returns_change_state IDLE s)
  end.
Qed.

(** A cycle in which a skill raises is aborted: the error state is
    entered and the history is left untrimmed. *)
Lemma process_command_aborted inp text a failure s2 e2 :
  raises (_check_skills inp text) (entered inp text a) failure s2 e2 ->
  returns (_process_command inp text) a tt (with_state s2 ERROR)
    ([StateChanged (state a) PROCESSING;
      ConversationUpdated (user_message_of inp text)] ++ e2 ++
     [StateChanged (state s2) ERROR; ErrorReported (u "Ошибка: " ++ failure);
      IdleRevertScheduled]).
Proof.
  intros Hcheck. unfold _process_command.
  change ([StateChanged (state a) PROCESSING;
           ConversationUpdated (user_message_of inp text)] ++ e2 ++
          [StateChanged (state s2) ERROR; ErrorReported (u "Ошибка: " ++ failure);
           IdleRevertScheduled])
    with (([StateChanged (state a) PROCESSING] ++ [] ++
           [ConversationUpdated (user_message_of inp text)] ++ e2) ++
          [StateChanged (state s2) ERROR; ErrorReported (u "Ошибка: " ++ failure);
           IdleRevertScheduled]).
  eapply returns_try_handler; [| apply returns_handle_error].
  eapply raises_bind_second; [apply returns_change_state |].
  eapply raises_bind_second; [apply returns_append |].
  eapply raises_bind_second; [apply returns_emit |].
  eapply raises_bind_first. exact Hcheck.
Qed.

End Cycle.

Section Orchestrator.
Context `{PyBuiltins}.

Arguments _check_skills : simpl never.
Arguments _get_fallback_response : simpl never.
Arguments compose_reply : simpl never.

Lemma skill_metadata_source (sr : SkillResult) :
  source_of (skill_metadata sr) = Some (MStr (u "skill")).
Proof.
  unfold source_of, skill_metadata. cbn [dict_get]. now rewrite str_eqb_refl.
Qed.

(** C1. In a cycle in which the skill matcher returns [sr], the assistant
    message and the metadata reported carry the reply chosen by the decision
    table: the skill response with source "skill" and no call of the model
    when the skill succeeded and asked not to continue; otherwise, with an
    available model client, one call of [generate_response] whose reply
    follows the skill response and the separator (source "hybrid") when the
    skill succeeded and stands alone (source "ai") when it failed; otherwise,
    without an available model client, the skill response (source "skill")
    when the skill succeeded and the locally computed fallback (source
    "fallback") when it failed, the model not being called. *)
Theorem C1_decision_table inp text a sr s2 e2 :
  returns (_check_skills inp text) (entered inp text a) sr s2 e2 ->
  exists answer md s3 e3,
    returns (_process_command inp text) a tt (finished inp answer s3)
      ([StateChanged (state a) PROCESSING;
        ConversationUpdated (user_message_of inp text)] ++ e2 ++ e3 ++
       [ConversationUpdated (assistant_message_of inp answer); AiResponded md;
        StateChanged (state s3) IDLE]) /\
    (success sr = true -> should_continue sr = false ->
       answer = response sr /\ source_of md = Some (MStr (u "skill")) /\
       e3 = [] /\ s3 = s2) /\
    (success sr = false \/ should_continue sr = true ->
     forall c, mistral_client s2 = Some c -> is_available c = true ->
       let m := generate_response c text (conversation_history s2)
                  (Some (context s2)) 500 (u "0.7") (model_net inp) in
       e3 = ModelCalled text :: map ModelRequested (sent m) /\
       mistral_client s3 = Some (client_after m) /\
       (success sr = true ->
          answer = response sr ++ SEPARATOR ++ reply m /\
          source_of md = Some (MStr (u "hybrid"))) /\
       (success sr = false ->
          answer = reply m /\ source_of md = Some (MStr (u "ai")))) /\
    (success sr = false \/ should_continue sr = true ->
     mistral_client s2 = None \/
     (exists c, mistral_client s2 = Some c /\ is_available c = false) ->
       e3 = [] /\ s3 = s2 /\
       (success sr = true ->
          answer = response sr /\ source_of md = Some (MStr (u "skill"))) /\
       (success sr = false ->
          answer = _get_fallback_response inp (context s2) text /\
          source_of md = Some (MStr (u "fallback")))).
Proof.
  intros Hcheck.
  destruct (compose_returns inp text sr s2) as (answer & md & s3 & e3 & Hcomp & _ & _).
  exists answer, md, s3, e3.
  split; [exact (process_command_completed Hcheck Hcomp) |].
  split; [| split].
  - intros Hs Hc.
    destruct (returns_inj Hcomp (compose_skill_only inp text sr s2 Hs Hc))
      as ([= -> ->] & -> & ->).
    split; [reflexivity |]. split; [apply skill_metadata_source |].
    split; reflexivity.
  - intros Hrow c Hcl Hav m.
    pose proof (compose_with_model inp text sr s2 Hrow Hcl Hav) as Hm.
    cbv zeta in Hm. fold m in Hm.
    destruct (returns_inj Hcomp Hm) as (Hpair & -> & ->).
    split; [reflexivity |]. split; [reflexivity |].
    split; intros Hs; rewrite Hs in Hpair; injection Hpair as -> ->;
      (split; [reflexivity | apply source_set]).
  - intros Hrow Hno.
    pose proof (compose_without_model inp text sr s2 Hrow Hno) as Hm.
    destruct (returns_inj Hcomp Hm) as (Hpair & -> & ->).
    split; [reflexivity |]. split; [reflexivity |].
    split; intros Hs; rewrite Hs in Hpair; injection Hpair as -> ->;
      (split; [reflexivity |]).
    + apply skill_metadata_source.
    + unfold source_of. cbn [dict_get]. now rewrite str_eqb_refl.
Qed.

(** *** Truncation *)

Lemma truncate_suffix (limit : Z) (h : list ConversationMessage) :
  exists dropped, h = dropped ++ truncate limit h.
Proof.
  unfold truncate, py_slice_from.
  destruct (limit <? Z.of_nat (length h))%Z.
  - eexists. symmetry. apply firstn_skipn.
  - exists []. reflexivity.
Qed.

Lemma truncate_length (limit : Z) (h : list ConversationMessage) :
  (1 <= limit)%Z ->
  length (truncate limit h) = Nat.min (length h) (Z.to_nat limit).
Proof.
  intros Hlimit. unfold truncate, py_slice_from.
  destruct (limit <? Z.of_nat (length h))%Z eqn:Hlong.
  - apply Z.ltb_lt in Hlong.
    replace (- limit <? 0)%Z with true by (symmetry; apply Z.ltb_lt; lia).
    rewrite length_skipn. lia.
  - apply Z.ltb_ge in Hlong. lia.
Qed.

Lemma truncate_single (limit : Z) (m : ConversationMessage) :
  (0 <= limit)%Z -> truncate limit [m] = [m].
Proof.
  intros Hlimit. unfold truncate.
  destruct (limit <? Z.of_nat (length [m]))%Z eqn:Hlong; trivial.
  apply Z.ltb_lt in Hlong. simpl in Hlong.
  assert (limit = 0%Z) as -> by lia. reflexivity.
Qed.

(** *** The two ways a cycle ends *)

Lemma check_skills_raises_keeps inp text s failure s2 e2 :
  raises (_check_skills inp text) s failure s2 e2 -> s2 = s.
Proof.
  intros Hr. destruct (check_skills_after inp text s) as [Hk | Hc].
  - unfold raises in Hr. rewrite Hr in Hk. exact Hk.
  - destruct (returns_not_raises Hc Hr).
Qed.

Lemma check_skills_returns_history inp text s sr s2 e2 :
  returns (_check_skills inp text) s sr s2 e2 ->
  max_history s2 = max_history s /\
  (conversation_history s2 = conversation_history s \/ conversation_history s2 = []).
Proof.
  intros Hr. destruct (check_skills_after inp text s) as [Hk | Hc].
  - unfold returns in Hr. rewrite Hr in Hk. simpl in Hk. subst. auto.
  - destruct (returns_inj Hr Hc) as (_ & -> & _). auto.
Qed.

Lemma process_command_cases inp text a :
  (exists answer s3 ev,
     returns (_process_command inp text) a tt (finished inp answer s3) ev /\
     max_history s3 = max_history a /\
     (conversation_history s3 = conversation_history a ++ [user_message_of inp text] \/
      conversation_history s3 = [])) \/
  (exists s2 ev,
     returns (_process_command inp text) a tt (with_state s2 ERROR) ev /\
     max_history s2 = max_history a /\
     conversation_history s2 = conversation_history a ++ [user_message_of inp text]).
Proof.
  destruct (step_cases (_check_skills inp text) (entered inp text a))
    as [(sr & s2 & e2 & Hcheck) | (failure & s2 & e2 & Hcheck)].
  - left.
    destruct (compose_returns inp text sr s2) as (answer & md & s3 & e3 & Hcomp & Hmax & Hhist).
    destruct (check_skills_returns_history _ _ Hcheck) as [Hmax2 Hhist2].
    exists answer, s3. eexists.
    split; [exact (process_command_completed Hcheck Hcomp) |].
    split; [rewrite Hmax, Hmax2; reflexivity |].
    rewrite Hhist. exact Hhist2.
  - right. exists s2. eexists.
    split; [exact (process_command_aborted Hcheck) |].
    apply check_skills_raises_keeps in Hcheck. subst s2. split; reflexivity.
Qed.

Lemma process_command_max inp text a :
  max_history (after (_process_command inp text a)) = max_history a /\
  exists s1 ev, returns (_process_command inp text) a tt s1 ev.
Proof.
  destruct (process_command_cases inp text a)
    as [(answer & s3 & ev & Hr & Hmax & _) | (s2 & ev & Hr & Hmax & _)];
    (split; [| eauto]); unfold returns in Hr; rewrite Hr; exact Hmax.
Qed.

Lemma processing_loop_max (queue : list (Inputs * pystr)) (a : Assistant) :
  max_history (after (_processing_loop queue a)) = max_history a.
Proof.
  revert a. induction queue as [|[inp command] queue IH]; intros a; [reflexivity |].
  destruct (process_command_max inp command a) as [Hmax (s1 & ev & Hr)].
  simpl. unfold bind. unfold returns in Hr. rewrite Hr in *. simpl in *.
  now rewrite IH.
Qed.

(** C6, amended. Whatever commands were processed before, completed or
    aborted, a cycle that runs to its end (the assistant is back in [IDLE])
    leaves a history no longer than the configured maximum, which the
    processing never changes. The history kept is the end of the history
    grown by this cycle: the messages dropped are the oldest ones, and the
    assistant message of the cycle is the last one kept. *)
Theorem C6_history_bounded inp text (queue : list (Inputs * pystr)) (a : Assistant) :
  (1 <= max_history a)%Z ->
  let before := after (_processing_loop queue a) in
  let r := _process_command inp text before in
  state (after r) = IDLE ->
  max_history (after r) = max_history a /\
  (Z.of_nat (length (conversation_history (after r))) <= max_history a)%Z /\
  exists older answer dropped,
    (older = conversation_history before ++ [user_message_of inp text] \/ older = []) /\
    older ++ [assistant_message_of inp answer] =
      dropped ++ conversation_history (after r) /\
    length (conversation_history (after r)) =
      Nat.min (S (length older)) (Z.to_nat (max_history a)).
Proof.
  intros Hlimit before r Hidle.
  pose proof (processing_loop_max queue a) as Hbefore. fold before in Hbefore.
  destruct (process_command_cases inp text before)
    as [(answer & s3 & ev & Hr & Hmax & Hhist) | (s2 & ev & Hr & _)];
    unfold returns in Hr; subst r; rewrite Hr in *; simpl in Hidle;
    [| discriminate].
  cbn [after finished with_state with_history max_history conversation_history].
  rewrite Hmax, Hbefore.
  pose proof (truncate_length (conversation_history s3 ++ [assistant_message_of inp answer])
                Hlimit) as Hlen.
  rewrite length_app in Hlen. cbn [length] in Hlen. rewrite Nat.add_1_r in Hlen.
  split; [reflexivity |]. split; [lia |].
  destruct (truncate_suffix (max_history a)
              (conversation_history s3 ++ [assistant_message_of inp answer]))
    as [dropped Hdrop].
  exists (conversation_history s3), answer, dropped.
  split; [destruct Hhist; auto |]. split; [exact Hdrop | exact Hlen].
Qed.

End Orchestrator.

(** ** Dispatch of the skills *)

Section Dispatch.
Context `{PyBuiltins}.

Lemma check_skills_refines inp text :
  _check_skills inp text = spec_check_skills inp text.
Proof.
  unfold _check_skills, spec_check_skills, spec_first_match, spec_priority_list.
  unfold find, spec_category_test, any_in. cbn [cat_keywords cat_handler].
  repeat match goal with
         | |- context [existsb ?f ?l] => destruct (existsb f l); [reflexivity |]
         end.
  reflexivity.
Qed.

Lemma first_match_ignores_case text text' :
  str_lower text' = str_lower text -> spec_first_match text' = spec_first_match text.
Proof.
  intros Hcase. unfold spec_first_match, spec_category_test. now rewrite Hcase.
Qed.

Lemma first_match_is_first text c :
  spec_first_match text = Some c <->
  exists earlier later,
    spec_priority_list = earlier ++ c :: later /\
    spec_category_test c text = true /\
    forall c', In c' earlier -> spec_category_test c' text = false.
Proof.
  unfold spec_first_match. generalize spec_priority_list as l.
  induction l as [|c0 l IH]; simpl.
  - split; [discriminate |]. intros (earlier & later & Heq & _).
    destruct earlier; discriminate.
  - destruct (spec_category_test c0 text) eqn:Htest.
    + split.
      * intros [= <-]. exists [], l. repeat split; trivial. intros c' [].
      * intros (earlier & later & Heq & Hc & Hnone).
        destruct earlier as [|c1 earlier]; simpl in Heq.
        -- congruence.
        -- injection Heq as <- _. rewrite (Hnone c0 (or_introl eq_refl)) in Htest.
           discriminate.
    + rewrite IH. split.
      * intros (earlier & later & -> & Hc & Hnone).
        exists (c0 :: earlier), later. repeat split; trivial.
        intros c' [<- | Hin]; auto.
      * intros (earlier & later & Heq & Hc & Hnone).
        destruct earlier as [|c1 earlier]; simpl in Heq.
        -- injection Heq as -> _. congruence.
        -- injection Heq as <- ->. exists earlier, later. repeat split; trivial.
           intros c' Hin. apply Hnone. now right.
Qed.

Lemma category_test_spec (c : Category) (text : pystr) :
  spec_category_test c text = true <->
  exists keyword before behind,
    In keyword (cat_keywords c) /\ str_lower text = before ++ keyword ++ behind.
Proof.
  unfold spec_category_test. rewrite existsb_exists. split.
  - intros (keyword & Hin & Hsub). apply str_in_spec in Hsub.
    destruct Hsub as (before & behind & Heq). now exists keyword, before, behind.
  - intros (keyword & before & behind & Hin & Heq). exists keyword.
    split; [exact Hin |]. apply str_in_spec. now exists before, behind.
Qed.

(** C2. The skill matcher goes through the categories time/date, weather,
    system-control, web-search, calculation, entertainment, note, reminder
    and clear-history in this order; a category matches when one of its
    keywords occurs in the lower-cased text, so that texts that differ in
    letter case only select the same category; the result is what the
    handler of the first matching category does, and without a matching
    category the result is [{success: false, should_continue: true}] with
    no effect. *)
Theorem C2_ordered_first_match inp text :
  map cat_name spec_priority_list =
    ["time/date"; "weather"; "system-control"; "web-search"; "calculation";
     "entertainment"; "note"; "reminder"; "clear-history"]%string /\
  _check_skills inp text = spec_check_skills inp text /\
  (forall c,
     spec_first_match text = Some c <->
     exists earlier later,
       spec_priority_list = earlier ++ c :: later /\
       spec_category_test c text = true /\
       forall c', In c' earlier -> spec_category_test c' text = false) /\
  (forall c,
     spec_category_test c text = true <->
     exists keyword before behind,
       In keyword (cat_keywords c) /\
       str_lower text = before ++ keyword ++ behind) /\
  (forall text', str_lower text' = str_lower text ->
     spec_first_match text' = spec_first_match text) /\
  (spec_first_match text = None ->
   forall s,
     returns (_check_skills inp text) s
       {| success := false; response := []; data := []; should_continue := true |}
       s []).
Proof.
  split; [reflexivity |].
  split; [apply check_skills_refines |].
  split; [intros c; apply first_match_is_first |].
  split; [intros c; apply category_test_spec |].
  split; [intros text'; apply first_match_ignores_case |].
  intros Hnone s. rewrite check_skills_refines. unfold spec_check_skills.
  rewrite Hnone. reflexivity.
Qed.

Lemma first_match_clear inp text :
  option_map cat_name (spec_first_match text) = Some "clear-history"%string ->
  _check_skills inp text = _skill_clear_history text.
Proof.
  rewrite check_skills_refines. unfold spec_check_skills, spec_first_match.
  unfold spec_priority_list, find.
  repeat match goal with
         | |- context [spec_category_test ?c text] =>
             destruct (spec_category_test c text);
             [cbn [option_map cat_name cat_handler]; intros Hname;
              first [discriminate Hname | reflexivity] |]
         end.
  discriminate.
Qed.

(** C10. When the first matching category of a command is clear-history,
    the skill runs on the history to which the user message of the command
    was already appended and empties it, user message included; at the end
    of the cycle the history holds exactly one message, the acknowledgement
    of the assistant, and the assistant is back in [IDLE]. *)
Theorem C10_clear_history_leaves_acknowledgement inp text a :
  option_map cat_name (spec_first_match text) = Some "clear-history"%string ->
  (0 <= max_history a)%Z ->
  let r := _process_command inp text a in
  conversation_history (entered inp text a) =
    conversation_history a ++ [user_message_of inp text] /\
  returns (_check_skills inp text) (entered inp text a) cleared_result
    (with_history (entered inp text a) []) [] /\
  outcome r = Returned tt /\
  conversation_history (after r) = [assistant_message_of inp CLEARED] /\
  state (after r) = IDLE.
Proof.
  intros Hclear Hlimit r.
  assert (Hcheck : returns (_check_skills inp text) (entered inp text a) cleared_result
                     (with_history (entered inp text a) []) []).
  { rewrite (first_match_clear inp text Hclear). apply skill_clear_returns. }
  pose proof (compose_skill_only inp text cleared_result
                (with_history (entered inp text a) []) eq_refl eq_refl) as Hcomp.
  pose proof (process_command_completed Hcheck Hcomp) as Hr.
  unfold returns in Hr. subst r. rewrite Hr.
  repeat split; trivial.
  cbn [after finished with_state with_history conversation_history max_history
       response cleared_result app].
  now apply truncate_single.
Qed.

End Dispatch.

(** ** Calculation *)

Lemma replace_single (a b : N) (s : pystr) :
  replace [a] [b] s = map (fun c => if (a =? c)%N then b else c) s.
Proof.
  unfold replace. induction s as [|c t IH]; [reflexivity |].
  cbn [replace_from starts_with length Nat.sub map].
  rewrite andb_true_r. destruct (a =? c)%N; simpl; now rewrite IH.
Qed.

Lemma calc_normalize_map (expression : pystr) :
  calc_normalize expression = map normalize_char expression.
Proof.
  unfold calc_normalize.
  change (u ",") with [44%N]. change (u ".") with [46%N].
  change (u "х") with [1093%N]. change (u "x") with [120%N].
  change (u "*") with [42%N].
  rewrite !replace_single, !map_map. apply map_ext. intros c.
  unfold normalize_char.
  destruct (N.eqb_spec c 120) as [-> | H120]; [reflexivity |].
  destruct (N.eqb_spec 120 c) as [<- | _]; [congruence |].
  destruct (N.eqb_spec c 1093) as [-> | H1093]; [reflexivity |].
  destruct (N.eqb_spec 1093 c) as [<- | _]; [congruence |].
  destruct (N.eqb_spec c 44) as [-> | H44]; [reflexivity |].
  destruct (N.eqb_spec 44 c) as [<- | _]; [congruence |].
  reflexivity.
Qed.

Section Calculation.
Context `{PyBuiltins}.

Lemma forallb_false_exists (f : N -> bool) (s : pystr) :
  (exists c, In c s /\ f c = false) -> forallb f s = false.
Proof.
  intros (c & Hin & Hc). destruct (forallb f s) eqn:Hall; trivial.
  rewrite forallb_forall in Hall. rewrite (Hall c Hin) in Hc. discriminate.
Qed.

Lemma calculation_refuses (text : pystr) :
  (exists c, In c (calc_normalize (calc_residual text)) /\ char_in allowed c = false) ->
  calculation text = calc_refusal.
Proof.
  intros Hbad. unfold calculation.
  destruct (calc_residual text) as [|c0 rest] eqn:Hres.
  - destruct Hbad as (c & [] & _).
  - now rewrite (forallb_false_exists _ _ Hbad).
Qed.

(** The same on the expression before it is normalized: a character
    outside the allowed set other than [x], [х] and the comma. *)
Lemma calculation_refuses_residual (text : pystr) :
  (exists c, In c (calc_residual text) /\
             char_in (allowed ++ u "xх,") c = false) ->
  calculation text = calc_refusal.
Proof.
  intros (c & Hin & Hc). apply calculation_refuses.
  exists c. rewrite calc_normalize_map.
  unfold char_in in Hc. rewrite existsb_app in Hc.
  apply orb_false_iff in Hc. destruct Hc as [Hallowed Hglyph].
  assert (Hsame : normalize_char c = c).
  { change (u "xх,") with [120%N; 1093%N; 44%N] in Hglyph. simpl in Hglyph.
    unfold normalize_char.
    destruct (c =? 120)%N; [discriminate |].
    destruct (c =? 1093)%N; [discriminate |].
    destruct (c =? 44)%N; [discriminate | reflexivity]. }
  split; [| exact Hallowed].
  rewrite <- Hsame. now apply in_map.
Qed.

(** C3, amended. When the expression left after the keywords are removed
    and the ends stripped, once [x] and the Cyrillic [х] are turned into
    [*] and the comma into a dot, contains a character outside
    ["0123456789+-*/.() "], the calculation skill returns the fixed refusal
    message with [success = true] and [should_continue = false], with no
    effect. *)
Theorem C3_refusal_outside_allowed (text : pystr) :
  (exists c, In c (calc_normalize (calc_residual text)) /\ char_in allowed c = false) ->
  calculation text = calc_refusal /\
  success calc_refusal = true /\ should_continue calc_refusal = false /\
  forall s, returns (_skill_calculation text) s calc_refusal s [].
Proof.
  intros Hbad. pose proof (calculation_refuses text Hbad) as Hcalc.
  repeat split; trivial.
  intros s. unfold returns, _skill_calculation, ret. now rewrite Hcalc.
Qed.

End Calculation.

Example u_decodes_cyrillic : u "хай" = [1093; 1072; 1081]%N.
Proof. reflexivity. Qed.

Example strip_example : strip (u "  2+2 ") = u "2+2".
Proof. reflexivity. Qed.

Example replace_example : replace (u "aa") (u "b") (u "aaaxaa") = u "baxb".
Proof. reflexivity. Qed.

Example slice_example :
  py_slice_from (-2) [1; 2; 3]%Z = [2; 3]%Z /\
  py_slice_from (-0) [1; 2; 3]%Z = [1; 2; 3]%Z.
Proof. split; reflexivity. Qed.

Example str_of_Z_example :
  str_of_Z 503 = u "503" /\ str_of_Z 0 = u "0" /\ str_of_Z (-7) = u "-7".
Proof. repeat split; reflexivity. Qed.

Example calculation_two_plus_two :
  calculation (H := Scenario.B) (u "Посчитай 2+2") =
  {| success := true; response := u "2+2 = 4";
     data := [(u "type", u "calculation"); (u "expression", u "2+2");
              (u "result", u "4")];
     should_continue := true |}.
Proof. vm_compute. reflexivity. Qed.

Example calculation_by_zero :
  calculation (H := Scenario.B) (u "посчитай 5/0") = calc_zero_division.
Proof. vm_compute. reflexivity. Qed.

Example upper_case_is_dispatched :
  option_map cat_name (spec_first_match (H := Scenario.B) (u "ОТКРОЙ КАЛЬКУЛЯТОР")) =
  Some "system-control"%string.
Proof. vm_compute. reflexivity. Qed.

(** ** The properties on the scenarios *)

Import Scenario.

(** C1 on a note taken without an available model: the reply is the
    response of the skill. *)
Lemma C1_witness_note_without_model :
  returns (_check_skills (H := B) calm note) (entered calm note fresh)
    note_result (entered calm note fresh) [] /\
  exists answer s3 ev,
    returns (_process_command (H := B) calm note) fresh tt (finished calm answer s3) ev /\
    answer = response note_result.
Proof.
  assert (Hcheck : returns (_check_skills (H := B) calm note) (entered calm note fresh)
                     note_result (entered calm note fresh) [])
    by (vm_compute; reflexivity).
  split; [exact Hcheck |].
  destruct (@C1_decision_table B calm note fresh _ _ _ Hcheck)
    as (answer & md & s3 & e3 & Hrun & _ & _ & Hlocal).
  assert (Hclient : mistral_client (entered calm note fresh) = Some offline)
    by (vm_compute; reflexivity).
  assert (Hoff : is_available offline = false) by (vm_compute; reflexivity).
  assert (Hmore : should_continue note_result = true) by reflexivity.
  assert (Hyes : success note_result = true) by reflexivity.
  destruct (Hlocal (or_intror Hmore)
              (or_intror (ex_intro _ offline (conj Hclient Hoff))))
    as (_ & _ & Hskill & _).
  exists answer, s3. eexists. split; [exact Hrun | exact (proj1 (Hskill Hyes))].
Defined.

(** C2 on a command in capitals. *)
Lemma C2_witness_capitals :
  str_lower (PyBuiltins := B) (u "ПОСЧИТАЙ 2+2") = str_lower (PyBuiltins := B) (u "посчитай 2+2") /\
  option_map cat_name (spec_first_match (H := B) (u "ПОСЧИТАЙ 2+2")) =
  Some "calculation"%string.
Proof.
  assert (Hcase : str_lower (PyBuiltins := B) (u "ПОСЧИТАЙ 2+2") =
                  str_lower (PyBuiltins := B) (u "посчитай 2+2"))
    by (vm_compute; reflexivity).
  split; [exact Hcase |].
  destruct (@C2_ordered_first_match B calm (u "посчитай 2+2"))
    as (_ & _ & _ & _ & Hsame & _).
  rewrite (Hsame _ Hcase). vm_compute. reflexivity.
Defined.

(** C3 as stated fails on a Latin [x]: the expression left after the
    keywords contains [x], which is outside the allowed set, and the skill
    answers with the product. *)
Lemma C3_counterexample_latin_x :
  let text := u "посчитай 2x3" in
  calc_residual (H := B) text = u "2x3" /\
  In 120%N (calc_residual (H := B) text) /\
  char_in allowed 120%N = false /\
  response (calculation (H := B) text) = u "2*3 = 6" /\
  should_continue (calculation (H := B) text) = true /\
  calculation (H := B) text <> calc_refusal.
Proof.
  vm_compute. repeat split; try reflexivity.
  - right. left. reflexivity.
  - discriminate.
Qed.

(** Whatever [eval] gives, this input is not refused. *)
Lemma latin_x_is_never_refused `{PyBuiltins} :
  str_lower (u "посчитай 2x3") = u "посчитай 2x3" ->
  calculation (u "посчитай 2x3") <> calc_refusal.
Proof.
  intros Hlower. unfold calculation, calc_residual. rewrite Hlower.
  replace (strip (strip_keywords calc_keywords (u "посчитай 2x3")))
    with [50%N; 120%N; 51%N] by (vm_compute; reflexivity).
  cbv beta iota zeta.
  replace (calc_normalize [50%N; 120%N; 51%N]) with [50%N; 42%N; 51%N]
    by (vm_compute; reflexivity).
  replace (forallb (char_in allowed) [50%N; 42%N; 51%N]) with true
    by (vm_compute; reflexivity).
  cbn [negb].
  destruct (py_eval [50%N; 42%N; 51%N]) as [shown | |]; intros Heq.
  - apply (f_equal should_continue) in Heq. discriminate.
  - apply (f_equal response) in Heq. vm_compute in Heq. discriminate.
  - discriminate.
Qed.

Lemma C3_witness_words :
  let text := u "посчитай 2 плюс 2" in
  In 1087%N (calc_normalize (calc_residual (H := B) text)) /\
  char_in allowed 1087%N = false /\
  calculation (H := B) text = calc_refusal.
Proof.
  intros text.
  assert (Hin : In 1087%N (calc_normalize (calc_residual (H := B) text)))
    by (vm_compute; right; right; left; reflexivity).
  assert (Hout : char_in allowed 1087%N = false) by (vm_compute; reflexivity).
  split; [exact Hin |]. split; [exact Hout |].
  exact (proj1 (@C3_refusal_outside_allowed B text
                  (ex_intro _ 1087%N (conj Hin Hout)))).
Defined.

(** C4 as stated fails when the entry was evicted: after a hundred other
    answered calls, the same question is sent to the service again. *)
Lemma C4_counterexample_evicted :
  let r1 := call_on (H := B) online first_question in
  let r2 := call_on (H := B) (after_calls (H := B) (client_after r1) others)
              same_question in
  is_available online = true /\
  message_tail (messages_of (H := B) first_question) =
    message_tail (messages_of (H := B) same_question) /\
  dict_get (_create_cache_key (messages_of (H := B) first_question))
    (response_cache (client_after r1)) = Some (reply r1) /\
  reply r1 = u "A" /\
  reply r2 = u "B" /\
  reply r2 <> reply r1 /\
  metadata r2 <> [(u "cached", MBool true)] /\
  length (sent r2) = 1%nat.
Proof.
  vm_compute. repeat split; try reflexivity; discriminate.
Qed.

Lemma C4_witness_ninety_nine_between :
  let second := ask (u "q") (HttpRaises Timeout) in
  let between := firstn 99 others in
  let r1 := call_on (H := B) online first_question in
  let r2 := call_on (H := B) (after_calls (H := B) (client_after r1) between) second in
  is_available online = true /\
  message_tail (messages_of (H := B) first_question) =
    message_tail (messages_of (H := B) second) /\
  (Z.of_nat (length between) < cache_size online)%Z /\
  reply r2 = reply r1 /\ metadata r2 = [(u "cached", MBool true)] /\ sent r2 = [].
Proof.
  intros second between r1 r2.
  assert (Hav : is_available online = true) by (vm_compute; reflexivity).
  assert (Hsize : (1 <= cache_size online)%Z) by (vm_compute; discriminate).
  assert (Hmiss : dict_get (_create_cache_key (messages_of (H := B) first_question))
                    (response_cache online) = None) by (vm_compute; reflexivity).
  assert (Hnet : call_net first_question =
                 HttpResponse 200
                   (BodyResult
                      ({| choice_content := u "A"; finish_reason := Some (u "stop") |} :: [])
                      (Some [(u "total_tokens", 12%Z)]) None))
    by (vm_compute; reflexivity).
  assert (Htail : message_tail (messages_of (H := B) first_question) =
                  message_tail (messages_of (H := B) second))
    by (vm_compute; reflexivity).
  assert (Hroom : (Z.of_nat (length between) < cache_size online)%Z)
    by (vm_compute; reflexivity).
  destruct (@C4_cached_reply_reused B online first_question second between
              _ _ _ _ Hav Hsize Hmiss Hnet Htail Hroom)
    as (_ & Hreply & Hmeta & Hsent).
  exact (conj Hav (conj Htail (conj Hroom (conj Hreply (conj Hmeta Hsent))))).
Defined.

Lemma C5_witness_padded_placeholder :
  In (strip (u "  sk-or-v1-  ")) placeholder_keys /\
  is_available (MistralClient.__init__ (Some (u "  sk-or-v1-  ")) default_model) = false /\
  reply (generate_response (H := B)
           (MistralClient.__init__ (Some (u "  sk-or-v1-  ")) default_model)
           (u "привет") [] None 500 (u "0.7") (answered "ok")) = MSG_UNAVAILABLE.
Proof.
  assert (Hin : In (strip (u "  sk-or-v1-  ")) placeholder_keys)
    by (vm_compute; right; right; left; reflexivity).
  destruct (@C5_no_credential_no_service B (Some (u "  sk-or-v1-  ")) default_model
              (or_intror (ex_intro _ _
                 (conj eq_refl (or_intror (or_intror (or_introl Hin)))))))
    as [Hav Hcall].
  split; [exact Hin |]. split; [exact Hav |].
  apply (Hcall (u "привет") [] None 500%Z (u "0.7") (answered "ok")).
Defined.

(** C6 as stated fails on a cycle aborted by a raising launcher: the user
    message was appended to a history of a hundred messages and nothing was
    trimmed. *)
Lemma C6_counterexample_aborted_cycle :
  let r := _process_command (H := B) no_browser (u "открой браузер") busy in
  max_history busy = 100%Z /\
  length (conversation_history busy) = 100%nat /\
  outcome r = Returned tt /\
  state (after r) = ERROR /\
  max_history (after r) = 100%Z /\
  length (conversation_history (after r)) = 101%nat /\
  ~ (Z.of_nat (length (conversation_history (after r))) <= max_history (after r))%Z.
Proof.
  vm_compute. repeat split; try reflexivity.
  intros Hle. apply Hle. reflexivity.
Qed.

Lemma C6_witness_after_fifty_cycles :
  let before := after (_processing_loop (H := B) fifty_notes fresh) in
  let r := _process_command (H := B) calm note before in
  (1 <= max_history fresh)%Z /\
  state (after r) = IDLE /\
  length (conversation_history before) = 100%nat /\
  (Z.of_nat (length (conversation_history (after r))) <= max_history fresh)%Z.
Proof.
  intros before r.
  assert (Hlimit : (1 <= max_history fresh)%Z) by (vm_compute; discriminate).
  assert (Hidle : state (after r) = IDLE) by (vm_compute; reflexivity).
  assert (Hfull : length (conversation_history before) = 100%nat)
    by (vm_compute; reflexivity).
  destruct (@C6_history_bounded B calm note fifty_notes fresh Hlimit Hidle)
    as (_ & Hbound & _).
  exact (conj Hlimit (conj Hidle (conj Hfull Hbound))).
Defined.

Lemma C7_witness_full_cache :
  Z.of_nat (length (response_cache full)) = cache_size full /\
  exists c' oldest rest,
    _add_to_cache full (u "k") (u "v") = Some c' /\
    response_cache full = oldest :: rest /\
    response_cache c' = rest ++ [(u "k", u "v")].
Proof.
  assert (Hfull : Z.of_nat (length (response_cache full)) = cache_size full)
    by (vm_compute; reflexivity).
  assert (Hsize : (1 <= cache_size full)%Z) by (vm_compute; discriminate).
  assert (Hmiss : dict_get (u "k") (response_cache full) = None)
    by (vm_compute; reflexivity).
  split; [exact Hfull |].
  destruct (@C7_cache_capacity B) as (_ & Hadd & _).
  destruct (Hadd full (u "k") (u "v") Hsize (Z.eq_le_incl _ _ Hfull))
    as (c' & Hstore & _ & _ & Hevict).
  destruct (Hevict Hfull Hmiss) as (oldest & rest & Hold & Hnew).
  exists c', oldest, rest. auto.
Defined.

(** C8 as stated fails on a client that is not available: the call
    returns before the request is counted. *)
Lemma C8_counterexample_unavailable_client :
  let r := generate_response (H := B) offline (u "привет") [] None 500 (u "0.7")
             (answered "ok") in
  is_available offline = false /\
  requests (stats (client_after r)) = requests (stats offline) /\
  requests (stats (client_after r)) <> (requests (stats offline) + 1)%Z.
Proof.
  vm_compute. repeat split; try reflexivity. discriminate.
Qed.

Lemma C8_witness_timeout_counted :
  is_available online = true /\
  requests (stats (client_after
     (generate_response (H := B) online (u "привет") [] None 500 (u "0.7")
        (HttpRaises Timeout)))) = (requests (stats online) + 1)%Z.
Proof.
  assert (Hav : is_available online = true) by (vm_compute; reflexivity).
  split; [exact Hav |].
  exact (@C8_request_counted_when_available B online (u "привет") [] None 500%Z
           (u "0.7") (HttpRaises Timeout) Hav).
Defined.

Lemma C9_witness_service_unavailable :
  let r := generate_response (H := B) online (u "привет") [] None 500 (u "0.7")
             (HttpResponse 503 (BodyInvalid [])) in
  is_available online = true /\
  reply r = u "Ошибка сервиса AI (код: " ++ str_of_Z 503 ++ u ")" /\
  errors (stats (client_after r)) = (errors (stats online) + 1)%Z.
Proof.
  intros r.
  assert (Hav : is_available online = true) by (vm_compute; reflexivity).
  assert (Hmiss : dict_get
                    (_create_cache_key (_prepare_messages (H := B) (u "привет") [] None))
                    (response_cache online) = None) by (vm_compute; reflexivity).
  destruct (@C9_status_handling B online (u "привет") [] None 500%Z (u "0.7")
              503%Z (BodyInvalid []) Hav Hmiss)
    as (_ & _ & Hother).
  destruct (Hother ltac:(discriminate) ltac:(discriminate) ltac:(discriminate))
    as (Hreply & _ & Herrors).
  exact (conj Hav (conj Hreply Herrors)).
Defined.

Lemma C10_witness_clear_after_fifty_cycles :
  let text := u "очисти историю" in
  let r := _process_command (H := B) calm text busy in
  option_map cat_name (spec_first_match (H := B) text) = Some "clear-history"%string /\
  (0 <= max_history busy)%Z /\
  length (conversation_history busy) = 100%nat /\
  conversation_history (after r) = [assistant_message_of calm CLEARED].
Proof.
  intros text r.
  assert (Hclear : option_map cat_name (spec_first_match (H := B) text) =
                   Some "clear-history"%string) by (vm_compute; reflexivity).
  assert (Hlimit : (0 <= max_history busy)%Z) by (vm_compute; discriminate).
  assert (Hfull : length (conversation_history busy) = 100%nat)
    by (vm_compute; reflexivity).
  destruct (@C10_clear_history_leaves_acknowledgement B calm text busy Hclear Hlimit)
    as (_ & _ & _ & Hhistory & _).
  exact (conj Hclear (conj Hlimit (conj Hfull Hhistory))).
Defined.

(** * Further properties of the model client *)

Lemma py_slice_last {A} (n : nat) (l : list A) :
  (1 <= n)%nat -> py_slice_from (- Z.of_nat n) l = skipn (length l - n) l.
Proof.
  intros Hn. unfold py_slice_from.
  replace (- Z.of_nat n <? 0)%Z with true by (symmetry; apply Z.ltb_lt; lia).
  f_equal. lia.
Qed.

Lemma skipn_snoc {A} (k : nat) (l : list A) (x : A) :
  (k <= length l)%nat -> skipn k (l ++ [x]) = skipn k l ++ [x].
Proof.
  intros Hk. rewrite skipn_app.
  replace (k - length l)%nat with 0%nat by lia. reflexivity.
Qed.

Lemma py_slice_two {A} (l : list A) (a b : A) :
  py_slice_from (-2) (l ++ [a; b]) = [a; b].
Proof.
  change (-2)%Z with (- Z.of_nat 2)%Z. rewrite py_slice_last by lia.
  rewrite length_app. simpl length.
  replace (length l + 2 - 2)%nat with (length l) by lia.
  rewrite skipn_app, skipn_all, Nat.sub_diag. reflexivity.
Qed.

Lemma prompt_head_long : length prompt_head = 777%nat.
Proof. vm_compute. reflexivity. Qed.

Section PreparedMessages.
Context `{PyBuiltins}.

Lemma prepare_messages_recent um (h : list ConversationMessage) ctx :
  _prepare_messages um h ctx =
  system_message ctx :: map chat_of (skipn (length h - 10) h) ++ [user_chat um].
Proof.
  unfold _prepare_messages. change (-10)%Z with (- Z.of_nat 10)%Z.
  rewrite py_slice_last by lia. reflexivity.
Qed.

(** X1. The messages prepared for the model are the system message, then
    the last ten messages of the history (all of them when there are fewer)
    in their order and with their roles, then the user message: between 2
    and 12 messages. *)
Theorem X1_prepared_messages_shape um (h : list ConversationMessage) ctx :
  let ms := _prepare_messages um h ctx in
  length ms = (2 + Nat.min 10 (length h))%nat /\
  exists older recent,
    h = older ++ recent /\
    length recent = Nat.min 10 (length h) /\
    ms = system_message ctx :: map chat_of recent ++ [user_chat um].
Proof.
  intros ms. subst ms. rewrite prepare_messages_recent. split.
  - cbn [length]. rewrite length_app, length_map, length_skipn. cbn [length]. lia.
  - exists (firstn (length h - 10) h), (skipn (length h - 10) h).
    split; [symmetry; apply firstn_skipn |].
    split; [rewrite length_skipn; lia | reflexivity].
Qed.

Lemma system_prompt_start ctx :
  firstn 100 (_create_system_prompt ctx) = firstn 100 prompt_head.
Proof.
  unfold _create_system_prompt. rewrite firstn_app, prompt_head_long.
  change (100 - 777)%nat with 0%nat. simpl firstn at 2. apply app_nil_r.
Qed.

Lemma cache_key_after_history um (older : list ConversationMessage) last ctx :
  _create_cache_key (_prepare_messages um (older ++ [last]) ctx) =
  role last ++ u ":" ++ firstn 100 (content last) ++ u "|" ++
  u "user:" ++ firstn 100 um.
Proof.
  rewrite prepare_messages_recent.
  rewrite skipn_snoc by (rewrite length_app; simpl; lia).
  rewrite map_app. simpl map. rewrite <- app_assoc. simpl app.
  change (system_message ctx :: map chat_of (skipn (length (older ++ [last]) - 10) older)
            ++ [chat_of last; user_chat um])
    with ((system_message ctx :: map chat_of (skipn (length (older ++ [last]) - 10) older))
            ++ [chat_of last; user_chat um]).
  unfold _create_cache_key. rewrite py_slice_two.
  cbn [map str_join chat_of user_chat msg_role msg_content].
  now rewrite <- !app_assoc.
Qed.

Lemma cache_key_without_history um ctx :
  _create_cache_key (_prepare_messages um [] ctx) =
  u "system:" ++ firstn 100 prompt_head ++ u "|" ++ u "user:" ++ firstn 100 um.
Proof.
  unfold _prepare_messages, _create_cache_key.
  change (py_slice_from (-10) (@nil ConversationMessage)) with (@nil ConversationMessage).
  cbn [map app].
  change ([{| msg_role := u "system"; msg_content := _create_system_prompt ctx |};
           {| msg_role := u "user"; msg_content := um |}])
    with ([] ++ [{| msg_role := u "system"; msg_content := _create_system_prompt ctx |};
                 {| msg_role := u "user"; msg_content := um |}]).
  rewrite py_slice_two. cbn [map str_join msg_role msg_content].
  rewrite system_prompt_start.
  change (u "system" ++ u ":") with (u "system:").
  change (u "user" ++ u ":") with (u "user:").
  rewrite <- !app_assoc. reflexivity.
Qed.

(** X2. The cache key is made of the user message and of the last message
    of the history only (of the fixed start of the system prompt when the
    history is empty): it depends neither on the context nor on the older
    messages, so that a reply cached in one conversation is reused in
    another that ends the same way. *)
Theorem X2_cache_key_ignores_context_and_older_history um :
  (forall older last ctx,
     _create_cache_key (_prepare_messages um (older ++ [last]) ctx) =
     role last ++ u ":" ++ firstn 100 (content last) ++ u "|" ++
     u "user:" ++ firstn 100 um) /\
  (forall ctx,
     _create_cache_key (_prepare_messages um [] ctx) =
     u "system:" ++ firstn 100 prompt_head ++ u "|" ++ u "user:" ++ firstn 100 um) /\
  (forall h ctx ctx',
     _create_cache_key (_prepare_messages um h ctx) =
     _create_cache_key (_prepare_messages um h ctx')) /\
  (forall older older' last ctx ctx',
     _create_cache_key (_prepare_messages um (older ++ [last]) ctx) =
     _create_cache_key (_prepare_messages um (older' ++ [last]) ctx')).
Proof.
  split; [intros; apply cache_key_after_history |].
  split; [intros; apply cache_key_without_history |].
  split.
  - intros h ctx ctx'. induction h as [|last older _] using rev_ind.
    + now rewrite !cache_key_without_history.
    + now rewrite !cache_key_after_history.
  - intros. now rewrite !cache_key_after_history.
Qed.

End PreparedMessages.

Section ClientCounters.
Context `{PyBuiltins}.

Lemma handle_outcome_errors (c : Client) key req net :
  let c' := client_after (handle_outcome c key req net) in
  (errors (stats c) <= errors (stats c') <= errors (stats c) + 1)%Z.
Proof.
  unfold handle_outcome.
  destruct net as [[| |text] | status body]; simpl; try lia.
  destruct (status =? 200)%Z.
  - destruct body as [[|first rest] usage served_by | text]; simpl; try lia.
    destruct (_add_to_cache _ _ _) as [c2|] eqn:E; simpl; try lia.
    rewrite (add_to_cache_stats _ _ _ E). simpl. lia.
  - destruct (status =? 401)%Z; [simpl; lia |].
    destruct (status =? 429)%Z; simpl; lia.
Qed.

Lemma call_counters (c : Client) (x : Call) :
  let c' := client_after (call_on c x) in
  let d := if available c then 1%Z else 0%Z in
  requests (stats c') = (requests (stats c) + d)%Z /\
  (errors (stats c) <= errors (stats c') <= errors (stats c) + d)%Z.
Proof.
  unfold call_on, generate_response.
  destruct (available c); cbn [negb]; cbv zeta; [| simpl; lia].
  change (response_cache (count_request c)) with (response_cache c).
  destruct (dict_get _ (response_cache c)); [simpl; lia |].
  split.
  - rewrite handle_outcome_requests. reflexivity.
  - match goal with |- context [handle_outcome ?c1 ?k ?r ?n] =>
      pose proof (handle_outcome_errors c1 k r n) as He
    end.
    simpl in He. exact He.
Qed.

Lemma after_calls_counters (calls : list Call) (c : Client) :
  let c' := after_calls c calls in
  requests (stats c') =
    (requests (stats c) + if available c then Z.of_nat (length calls) else 0)%Z /\
  (errors (stats c) <= errors (stats c'))%Z /\
  (errors (stats c') - errors (stats c) <= requests (stats c') - requests (stats c))%Z.
Proof.
  revert c. induction calls as [|x calls IH]; intros c.
  - simpl. destruct (available c); lia.
  - destruct (call_frame c x) as [Hav _]. simpl in Hav.
    destruct (call_counters c x) as [Hreq Herr]. simpl in Hreq, Herr.
    specialize (IH (client_after (call_on c x))). simpl in IH.
    destruct IH as (IHreq & IHle & IHerr). rewrite Hav in IHreq.
    cbn [after_calls length]. cbv zeta.
    destruct (available c); lia.
Qed.

(** X4. For a client built by the constructor and after any sequence of
    calls, the request counter is the number of calls made when the client
    is available and 0 when it is not, and the error counter lies between 0
    and the request counter: an error is only counted for a request that
    was counted. *)
Theorem X4_counters_after_calls (k : option pystr) (m : pystr) (calls : list Call) :
  let c := after_calls (MistralClient.__init__ k m) calls in
  is_available c = negb (key_rejected k) /\
  requests (stats c) =
    (if key_rejected k then 0 else Z.of_nat (length calls))%Z /\
  (0 <= errors (stats c) <= requests (stats c))%Z.
Proof.
  intros c. subst c.
  destruct (after_calls_frame calls (MistralClient.__init__ k m)) as [Hav _].
  destruct (after_calls_counters calls (MistralClient.__init__ k m))
    as (Hreq & Hle & Herr).
  simpl in Hav, Hreq, Hle, Herr.
  split; [exact Hav |].
  destruct (key_rejected k); simpl in Hreq; split; lia.
Qed.

(** X5. A call changes the response cache and the token counter only when
    it misses the cache on an available client and is answered with status
    200 and at least one choice: neither a cached reply nor any failure of
    the service is written to the cache. *)
Theorem X5_only_answers_are_cached (c : Client) (x : Call) :
  let r := call_on c x in
  (available c = true /\
   dict_get (_create_cache_key (messages_of x)) (response_cache c) = None /\
   exists first more usage served_by,
     call_net x = HttpResponse 200 (BodyResult (first :: more) usage served_by)) \/
  (response_cache (client_after r) = response_cache c /\
   tokens_used (stats (client_after r)) = tokens_used (stats c)).
Proof.
  intros r. subst r. unfold call_on, generate_response, messages_of.
  destruct (available c); cbn [negb]; cbv zeta; [| right; split; reflexivity].
  change (response_cache (count_request c)) with (response_cache c).
  destruct (dict_get _ (response_cache c)); [right; split; reflexivity |].
  unfold handle_outcome.
  destruct (call_net x) as [[| |text] | status body];
    try (right; split; reflexivity).
  destruct (Z.eqb_spec status 200) as [-> | Hne].
  - destruct body as [[|first rest] usage served_by | text];
      try (right; split; reflexivity).
    left. repeat split. now exists first, rest, usage, served_by.
  - right. destruct (status =? 401)%Z; [split; reflexivity |].
    destruct (status =? 429)%Z; split; reflexivity.
Qed.

(** X6. After a cache miss on an available client, whatever [requests.post]
    raises is turned into a reply: a timeout and a connection failure give
    their fixed messages, any other exception the message that embeds its
    text; the metadata are empty, one request was sent, the error counter
    grows by one, and the cache and the token counter stay as they are. *)
Theorem X6_exceptions_become_replies (c : Client) um h ctx mt temp (e : RequestError) :
  is_available c = true ->
  dict_get (_create_cache_key (_prepare_messages um h ctx)) (response_cache c) = None ->
  let r := generate_response c um h ctx mt temp (HttpRaises e) in
  reply r =
    match e with
    | Timeout => MSG_TIMEOUT
    | ConnectionError => MSG_NO_CONNECTION
    | OtherError text => u "Внутренняя ошибка: " ++ text
    end /\
  metadata r = [] /\
  length (sent r) = 1%nat /\
  errors (stats (client_after r)) = (errors (stats c) + 1)%Z /\
  response_cache (client_after r) = response_cache c /\
  tokens_used (stats (client_after r)) = tokens_used (stats c).
Proof.
  intros Hav Hmiss r. subst r. unfold is_available in Hav.
  unfold generate_response. rewrite Hav. cbn [negb].
  change (response_cache (count_request c)) with (response_cache c).
  cbv zeta. rewrite Hmiss. unfold handle_outcome.
  destruct e; repeat split.
Qed.

End ClientCounters.

Lemma X6_witness_timeout :
  let r := generate_response (H := B) online (u "привет") [] None 500 (u "0.7")
             (HttpRaises Timeout) in
  is_available online = true /\
  reply r = MSG_TIMEOUT /\
  errors (stats (client_after r)) = (errors (stats online) + 1)%Z.
Proof.
  intros r.
  assert (Hav : is_available online = true) by (vm_compute; reflexivity).
  assert (Hmiss : dict_get
                    (_create_cache_key (_prepare_messages (H := B) (u "привет") [] None))
                    (response_cache online) = None) by (vm_compute; reflexivity).
  destruct (@X6_exceptions_become_replies B online (u "привет") [] None 500%Z (u "0.7")
              Timeout Hav Hmiss)
    as (Hreply & _ & _ & Herrors & _).
  exact (conj Hav (conj Hreply Herrors)).
Defined.

(** * Further properties of the orchestrator *)

(** ** What commands emit and raise *)

Lemma emits_ret {A} p (a : A) : emits_only p (ret a).
Proof. intros s. reflexivity. Qed.

Lemma emits_get p : emits_only p get.
Proof. intros s. reflexivity. Qed.

Lemma emits_put p s' : emits_only p (put s').
Proof. intros s. reflexivity. Qed.

Lemma emits_raise {A} p text : emits_only p (raise (A := A) text).
Proof. intros s. reflexivity. Qed.

Lemma emits_emit (p : Event -> bool) e : p e = true -> emits_only p (emit e).
Proof. intros He s. simpl. now rewrite He. Qed.

Lemma emits_bind {A B} p (c : Cmd A) (k : A -> Cmd B) :
  emits_only p c -> (forall a, emits_only p (k a)) -> emits_only p (bind c k).
Proof.
  intros Hc Hk s. unfold bind. specialize (Hc s).
  destruct (c s) as [[a | text] s1 e1]; simpl in *; trivial.
  rewrite forallb_app, Hc. apply Hk.
Qed.

Lemma emits_try {A} p (body : Cmd A) (handler : pystr -> Cmd A) :
  emits_only p body -> (forall text, emits_only p (handler text)) ->
  emits_only p (try_except body handler).
Proof.
  intros Hb Hh s. unfold try_except. specialize (Hb s).
  destruct (body s) as [[a | text] s1 e1]; simpl in *; trivial.
  rewrite forallb_app, Hb. apply Hh.
Qed.

Lemma emits_launch (p : Event -> bool) inp e : p e = true -> emits_only p (launch inp e).
Proof.
  intros He. unfold launch. destruct (launch_error inp).
  - apply emits_raise.
  - now apply emits_emit.
Qed.

Lemma emits_by_platform (p : Event -> bool) inp windows darwin other :
  p windows = true -> p darwin = true -> p other = true ->
  emits_only p (by_platform inp windows darwin other).
Proof.
  intros Hw Hd Ho. unfold by_platform. apply emits_launch.
  now destruct (platform inp).
Qed.

Lemma launcher_ret {A} inp (a : A) : raises_launcher_only inp (ret a).
Proof. intros s text. discriminate. Qed.

Lemma launcher_get inp : raises_launcher_only inp get.
Proof. intros s text. discriminate. Qed.

Lemma launcher_put inp s' : raises_launcher_only inp (put s').
Proof. intros s text. discriminate. Qed.

Lemma launcher_emit inp e : raises_launcher_only inp (emit e).
Proof. intros s text. discriminate. Qed.

Lemma launcher_launch inp e : raises_launcher_only inp (launch inp e).
Proof.
  intros s text. unfold launch. destruct (launch_error inp) as [failure |].
  - simpl. now intros [= ->].
  - discriminate.
Qed.

Lemma launcher_bind {A B} inp (c : Cmd A) (k : A -> Cmd B) :
  raises_launcher_only inp c -> (forall a, raises_launcher_only inp (k a)) ->
  raises_launcher_only inp (bind c k).
Proof.
  intros Hc Hk s text. unfold bind. specialize (Hc s).
  destruct (c s) as [[a | failure] s1 e1]; simpl in *.
  - apply Hk.
  - intros [= ->]. now apply Hc.
Qed.

Lemma launcher_try {A} inp (body : Cmd A) (handler : pystr -> Cmd A) :
  (forall text, raises_launcher_only inp (handler text)) ->
  raises_launcher_only inp (try_except body handler).
Proof.
  intros Hh s text. unfold try_except.
  destruct (body s) as [[a | failure] s1 e1]; simpl.
  - discriminate.
  - apply Hh.
Qed.

Ltac emits :=
  repeat first
    [ apply emits_ret | apply emits_get | apply emits_put | apply emits_raise
    | apply emits_emit; reflexivity
    | apply emits_launch; reflexivity
    | apply emits_by_platform; reflexivity
    | apply emits_bind; [| intros ?]
    | apply emits_try; [| intros ?]
    | progress cbv beta zeta
    | match goal with
      | |- emits_only _ (if ?b then _ else _) => destruct b
      | |- emits_only _ (match ?x with _ => _ end) => destruct x
      end ].

Ltac launcher :=
  repeat first
    [ apply launcher_ret | apply launcher_get | apply launcher_put
    | apply launcher_emit | apply launcher_launch
    | apply launcher_bind; [| intros ?]
    | apply launcher_try; intros ?
    | progress cbv beta zeta
    | match goal with
      | |- raises_launcher_only _ (if ?b then _ else _) => destruct b
      | |- raises_launcher_only _ (match ?x with _ => _ end) => destruct x
      end ].

Section SkillEffects.
Context `{PyBuiltins}.

Lemma check_skills_emits inp text : emits_only is_action (_check_skills inp text).
Proof.
  unfold _check_skills, _skill_time, _skill_weather, _skill_system,
    _skill_web, _skill_calculation, _skill_entertainment, _skill_note,
    _skill_reminder, _skill_clear_history.
  emits.
Qed.

Lemma check_skills_launcher inp text : raises_launcher_only inp (_check_skills inp text).
Proof.
  unfold _check_skills, _skill_time, _skill_weather, _skill_system, by_platform,
    _skill_web, _skill_calculation, _skill_entertainment, _skill_note,
    _skill_reminder, _skill_clear_history.
  launcher.
Qed.

End SkillEffects.

(** ** The trace of a cycle *)

Lemma filter_none {A} (p q : A -> bool) (l : list A) :
  forallb p l = true -> (forall x, p x = true -> q x = false) -> filter q l = [].
Proof.
  intros Hall Hpq. induction l as [|x l IH]; [reflexivity |].
  simpl in *. apply andb_true_iff in Hall. destruct Hall as [Hx Hl].
  rewrite (Hpq x Hx). now apply IH.
Qed.

Lemma action_not_notification e : is_action e = true -> is_notification e = false.
Proof. now destruct e. Qed.

Lemma model_event_not_notification e :
  is_model_event e = true -> is_notification e = false.
Proof. now destruct e. Qed.

Lemma requests_are_model_events (l : list NetRequest) :
  forallb is_model_event (map ModelRequested l) = true.
Proof. induction l; simpl; trivial. Qed.

Section CycleTrace.
Context `{PyBuiltins}.

Arguments _check_skills : simpl never.
Arguments compose_reply : simpl never.

(** The reply is composed without raising; the assistant changes at most by
    its model client, and only events of the model client are emitted. *)
Lemma compose_shape inp text sr s :
  exists answer md s' ev,
    returns (compose_reply inp text sr) s (answer, md) s' ev /\
    (s' = s \/ exists c', s' = with_client s (Some c')) /\
    forallb is_model_event ev = true.
Proof.
  destruct (success sr && negb (should_continue sr)) eqn:Hrow.
  - apply andb_true_iff in Hrow. destruct Hrow as [Hs Hc].
    apply negb_true_iff in Hc.
    do 4 eexists. split; [now apply compose_skill_only | auto].
  - assert (Hrow' : success sr = false \/ should_continue sr = true).
    { destruct (success sr), (should_continue sr); auto; discriminate. }
    destruct (mistral_client s) as [c |] eqn:Hc.
    + destruct (is_available c) eqn:Hav.
      * pose proof (compose_with_model inp text sr s Hrow' Hc Hav) as Hm.
        cbv zeta in Hm.
        destruct (success sr); do 4 eexists;
          (split; [exact Hm |]); (split; [right; eauto |]);
          simpl; apply requests_are_model_events.
      * pose proof (compose_without_model inp text sr s Hrow'
                      (or_intror (ex_intro _ c (conj Hc Hav)))) as Hm.
        destruct (success sr); do 4 eexists; (split; [exact Hm | auto]).
    + pose proof (compose_without_model inp text sr s Hrow' (or_introl Hc)) as Hm.
      destruct (success sr); do 4 eexists; (split; [exact Hm | auto]).
Qed.

(** The two traces of a cycle. *)
Lemma cycle_trace inp text a :
  (exists answer md s3 e2 e3,
     returns (_process_command inp text) a tt (finished inp answer s3)
       ([StateChanged (state a) PROCESSING;
         ConversationUpdated (user_message_of inp text)] ++ e2 ++ e3 ++
        [ConversationUpdated (assistant_message_of inp answer); AiResponded md;
         StateChanged PROCESSING IDLE]) /\
     forallb is_action e2 = true /\ forallb is_model_event e3 = true /\
     config s3 = config a /\ context s3 = context a /\
     max_history s3 = max_history a /\ is_running s3 = is_running a) \/
  (exists failure e2,
     launch_error inp = Some failure /\
     returns (_process_command inp text) a tt (with_state (entered inp text a) ERROR)
       ([StateChanged (state a) PROCESSING;
         ConversationUpdated (user_message_of inp text)] ++ e2 ++
        [StateChanged PROCESSING ERROR; ErrorReported (u "Ошибка: " ++ failure);
         IdleRevertScheduled]) /\
     forallb is_action e2 = true).
Proof.
  pose proof (check_skills_emits inp text (entered inp text a)) as Hact.
  destruct (step_cases (_check_skills inp text) (entered inp text a))
    as [(sr & s2 & e2 & Hcheck) | (failure & s2 & e2 & Hcheck)].
  - left.
    destruct (compose_shape inp text sr s2) as (answer & md & s3 & e3 & Hcomp & Hs3 & He3).
    pose proof (process_command_completed Hcheck Hcomp) as Hrun.
    assert (Hs2 : s2 = entered inp text a \/ s2 = with_history (entered inp text a) []).
    { destruct (check_skills_after inp text (entered inp text a)) as [Hk | Hc].
      - left. unfold returns in Hcheck. rewrite Hcheck in Hk. exact Hk.
      - right. now destruct (returns_inj Hcheck Hc) as (_ & -> & _). }
    unfold returns in Hcheck. rewrite Hcheck in Hact. simpl in Hact.
    assert (Hstate : state s3 = PROCESSING).
    { destruct Hs3 as [-> | (c' & ->)]; destruct Hs2 as [-> | ->]; reflexivity. }
    rewrite Hstate in Hrun.
    exists answer, md, s3, e2, e3.
    split; [exact Hrun |]. split; [exact Hact |]. split; [exact He3 |].
    destruct Hs3 as [-> | (c' & ->)]; destruct Hs2 as [-> | ->]; repeat split.
  - right.
    pose proof (check_skills_launcher inp text) as Hlaunch.
    unfold raises_launcher_only in Hlaunch.
    specialize (Hlaunch (entered inp text a) failure).
    pose proof (process_command_aborted Hcheck) as Hrun.
    pose proof (check_skills_raises_keeps _ _ Hcheck) as ->.
    unfold raises in Hcheck. rewrite Hcheck in Hact, Hlaunch. simpl in Hact, Hlaunch.
    exists failure, e2. split; [now apply Hlaunch |]. split; [exact Hrun | exact Hact].
Qed.


(** X8. The notifications of a cycle. A completed cycle notifies, in this
    order: the change to [PROCESSING], the user message, the assistant
    message, the metadata of the reply, the change from [PROCESSING] to
    [IDLE]; the assistant message notified is the last message of the
    history. An aborted cycle notifies the change to [PROCESSING], the user
    message, the change from [PROCESSING] to [ERROR], the error, and
    schedules the return to idle; it notifies neither an assistant message
    nor metadata. *)
Theorem X8_cycle_notifications inp text a :
  let r := _process_command inp text a in
  (state (after r) = IDLE ->
   exists answer md,
     notifications (events r) =
       [StateChanged (state a) PROCESSING;
        ConversationUpdated (user_message_of inp text);
        ConversationUpdated (assistant_message_of inp answer);
        AiResponded md;
        StateChanged PROCESSING IDLE] /\
     ((1 <= max_history a)%Z ->
      last (conversation_history (after r)) (user_message_of inp text) =
        assistant_message_of inp answer)) /\
  (state (after r) = ERROR ->
   exists failure,
     notifications (events r) =
       [StateChanged (state a) PROCESSING;
        ConversationUpdated (user_message_of inp text);
        StateChanged PROCESSING ERROR;
        ErrorReported (u "Ошибка: " ++ failure);
        IdleRevertScheduled]).
Proof.
  intros r. subst r.
  destruct (cycle_trace inp text a)
    as [(answer & md & s3 & e2 & e3 & Hrun & He2 & He3 & _ & _ & Hmax & _)
       | (failure & e2 & Hlaunch & Hrun & He2)];
    unfold returns in Hrun; rewrite Hrun; cbn [outcome after events].
  - split; [intros _ | discriminate].
    exists answer, md. split.
    + unfold notifications. rewrite !filter_app.
      rewrite (@filter_none _ _ _ _ He2 action_not_notification).
      rewrite (@filter_none _ _ _ _ He3 model_event_not_notification).
      reflexivity.
    + intros Hlimit.
      cbn [finished with_state with_history conversation_history].
      rewrite Hmax.
      destruct (truncate_suffix (max_history a)
                  (conversation_history s3 ++ [assistant_message_of inp answer]))
        as [dropped Hdrop].
      pose proof (truncate_length
                    (conversation_history s3 ++ [assistant_message_of inp answer])
                    Hlimit) as Hlen.
      rewrite length_app in Hlen. cbn [length] in Hlen.
      destruct (truncate (max_history a)
                  (conversation_history s3 ++ [assistant_message_of inp answer]))
        as [|m kept] eqn:Hkept using rev_ind.
      * simpl in Hlen. lia.
      * rewrite last_last.
        rewrite app_assoc in Hdrop. now apply app_inj_tail in Hdrop.
  - split; [discriminate | intros _].
    exists failure. unfold notifications. rewrite !filter_app.
    rewrite (@filter_none _ _ _ _ He2 action_not_notification). reflexivity.
Qed.

End CycleTrace.


Lemma X8_witness_aborted_notifications :
  let r := _process_command (H := B) no_browser (u "открой браузер") fresh in
  state (after r) = ERROR /\
  exists failure,
    notifications (events r) =
      [StateChanged (state fresh) PROCESSING;
       ConversationUpdated (user_message_of no_browser (u "открой браузер"));
       StateChanged PROCESSING ERROR;
       ErrorReported (u "Ошибка: " ++ failure);
       IdleRevertScheduled].
Proof.
  intros r.
  assert (Herror : state (after r) = ERROR) by (vm_compute; reflexivity).
  destruct (@X8_cycle_notifications B no_browser (u "открой браузер") fresh)
    as (_ & Haborted).
  exact (conj Herror (Haborted Herror)).
Defined.

Section LoopAndKeys.
Context `{PyBuiltins}.

Arguments _check_skills : simpl never.
Arguments compose_reply : simpl never.
Arguments _process_command : simpl never.






(** X10. When the model is consulted in a cycle, the history handed to it
    ends with the user message of the command, which is also the message
    asked: the cache key is made of the first 100 characters of the command
    alone, twice. Two commands that agree on their first 100 characters
    share their cached reply, whatever was said before. *)
Theorem X10_cycle_cache_key inp text a sr s2 e2 :
  returns (_check_skills inp text) (entered inp text a) sr s2 e2 ->
  success sr = false \/ should_continue sr = true ->
  conversation_history s2 = conversation_history a ++ [user_message_of inp text] /\
  _create_cache_key
    (_prepare_messages text (conversation_history s2) (Some (context s2))) =
  key_of_text text.
Proof.
  intros Hcheck Hrow.
  assert (Hhist : conversation_history s2 =
                  conversation_history a ++ [user_message_of inp text]).
  { destruct (check_skills_after inp text (entered inp text a)) as [Hk | Hc].
    - unfold returns in Hcheck. rewrite Hcheck in Hk. simpl in Hk. now subst s2.
    - destruct (returns_inj Hcheck Hc) as (-> & _ & _).
      destruct Hrow as [Hrow | Hrow]; discriminate Hrow. }
  split; [exact Hhist |].
  rewrite Hhist, cache_key_after_history. unfold key_of_text.
  cbn [user_message_of role content].
  change (u "user:") with (u "user" ++ u ":").
  now rewrite <- !app_assoc.
Qed.

(** X11. A command that contains a keyword of the time category is
    answered by the time skill alone, whatever else it contains: the reply
    is one of the three renderings of the clock, the cycle completes with
    the five notifications of a completed cycle and no other event, so the
    model is neither called nor asked, and the model client is
    unchanged. *)
Theorem X11_time_skill_is_terminal inp text a :
  any_in kw_time (str_lower text) = true ->
  exists answer md,
    (answer = u "Сейчас " ++ fmt_time (skill_now inp) \/
     answer = u "Сегодня " ++ fmt_date (skill_now inp) ++ u ", " ++
              nth (weekday (skill_now inp)) days [] \/
     answer = u "Сейчас " ++ fmt_short (skill_now inp)) /\
    source_of md = Some (MStr (u "skill")) /\
    returns (_process_command inp text) a tt (finished inp answer (entered inp text a))
      [StateChanged (state a) PROCESSING;
       ConversationUpdated (user_message_of inp text);
       ConversationUpdated (assistant_message_of inp answer);
       AiResponded md;
       StateChanged PROCESSING IDLE] /\
    mistral_client (finished inp answer (entered inp text a)) = mistral_client a.
Proof.
  intros Htime.
  assert (Hskill : _check_skills inp text = _skill_time inp text).
  { unfold _check_skills. now rewrite Htime. }
  set (sr := {| success := true;
                response :=
                  if str_in (u "время") (str_lower text)
                  then u "Сейчас " ++ fmt_time (skill_now inp)
                  else if str_in (u "дата") (str_lower text)
                       then u "Сегодня " ++ fmt_date (skill_now inp) ++ u ", " ++
                            nth (weekday (skill_now inp)) days []
                       else u "Сейчас " ++ fmt_short (skill_now inp);
                data := [(u "type", u "time");
                         (u "timestamp", isoformat (skill_now inp))];
                should_continue := false |}).
  assert (Hcheck : returns (_check_skills inp text) (entered inp text a) sr
                     (entered inp text a) []).
  { rewrite Hskill. reflexivity. }
  pose proof (compose_skill_only inp text sr (entered inp text a) eq_refl eq_refl)
    as Hcomp.
  pose proof (process_command_completed Hcheck Hcomp) as Hrun.
  exists (response sr), (skill_metadata sr).
  split.
  { subst sr. cbn [response].
    destruct (str_in (u "время") (str_lower text)); [auto |].
    destruct (str_in (u "дата") (str_lower text)); auto. }
  split.
  { unfold source_of, skill_metadata. cbn [dict_get]. now rewrite str_eqb_refl. }
  split; [exact Hrun | reflexivity].
Qed.

(** X12. The calculation skill hands to [eval] only expressions that are
    not empty and made of the characters ["0123456789+-*/.() "]: its result
    is the same for any two evaluators that agree on such expressions. *)
Theorem X12_eval_sees_allowed_characters_only
    (lower : pystr -> pystr) (capitalize : pystr -> pystr)
    (show : list pystr -> pystr) (eval eval' : pystr -> EvalOutcome) (text : pystr) :
  (forall expression,
     expression <> [] -> forallb (char_in allowed) expression = true ->
     eval expression = eval' expression) ->
  calculation (H := {| str_lower := lower; str_capitalize := capitalize;
                       str_of_list := show; py_eval := eval |}) text =
  calculation (H := {| str_lower := lower; str_capitalize := capitalize;
                       str_of_list := show; py_eval := eval' |}) text.
Proof.
  intros Hagree. unfold calculation, calc_residual. cbn [str_lower py_eval].
  destruct (strip (strip_keywords calc_keywords (lower text))) as [|c rest];
    [reflexivity |].
  destruct (forallb (char_in allowed) (calc_normalize (c :: rest))) eqn:Hallowed;
    cbn [negb]; [| reflexivity].
  rewrite Hagree; trivial.
  rewrite calc_normalize_map. discriminate.
Qed.

End LoopAndKeys.

(** * Further properties of the skills *)

Lemma lstrip_head (s : pystr) c t : lstrip s = c :: t -> py_isspace c = false.
Proof.
  induction s as [|a s IH]; simpl; [discriminate |].
  destruct (py_isspace a) eqn:Ha; [exact IH |].
  intros [= <- _]. exact Ha.
Qed.

Lemma lstrip_split (s : pystr) :
  exists spaces, s = spaces ++ lstrip s /\ forallb py_isspace spaces = true.
Proof.
  induction s as [|a s (spaces & Heq & Hall)]; simpl.
  - now exists [].
  - destruct (py_isspace a) eqn:Ha.
    + exists (a :: spaces). simpl. rewrite Ha, Hall. now rewrite <- Heq.
    + now exists [].
Qed.

Lemma rstrip_split (s : pystr) :
  exists spaces, s = rstrip s ++ spaces /\ forallb py_isspace spaces = true.
Proof.
  unfold rstrip. destruct (lstrip_split (rev s)) as (spaces & Heq & Hall).
  exists (rev spaces). split.
  - rewrite <- rev_app_distr, <- Heq. now rewrite rev_involutive.
  - rewrite forallb_forall in *. intros c Hc. apply Hall. now apply in_rev.
Qed.

Lemma rstrip_last (s t : pystr) c : rstrip s = t ++ [c] -> py_isspace c = false.
Proof.
  unfold rstrip. intros Heq. apply (f_equal (@rev N)) in Heq.
  rewrite rev_involutive, rev_app_distr in Heq. simpl in Heq.
  exact (@lstrip_head _ _ _ Heq).
Qed.

(** What [strip()] leaves has no white space at either end. *)
Lemma strip_ends (s : pystr) c t :
  strip s = c :: t ->
  py_isspace c = false /\ py_isspace (last (c :: t) c) = false.
Proof.
  unfold strip. intros Heq. split.
  - destruct (rstrip_split (lstrip s)) as (spaces & Hsplit & _).
    rewrite Heq in Hsplit. simpl in Hsplit. exact (@lstrip_head _ _ _ Hsplit).
  - destruct (exists_last (l := c :: t)) as (t' & z & Hlast); [discriminate |].
    rewrite Hlast in *. rewrite last_last. exact (@rstrip_last _ _ _ Heq).
Qed.

Section WebSkill.
Context `{PyBuiltins}.

(** X13. The web skill never raises and leaves the assistant as it is. On
    an empty query it asks what to search and opens nothing. Otherwise the
    query has no white space at its ends and at most one page is opened:
    the results of the video platform when the command names it, those of
    the search engine when not; when the browser cannot be opened the skill
    reports a failure and opens nothing. *)
Theorem X13_web_search_opens_one_page inp text s :
  let text_lower := str_lower text in
  let query := strip (strip_keywords web_keywords text_lower) in
  let r := _skill_web inp text s in
  after r = s /\
  match query with
  | [] =>
      events r = [] /\
      exists sr, outcome r = Returned sr /\
                 success sr = true /\ should_continue sr = false /\
                 response sr = u "Что именно вы хотите найти?"
  | c :: _ =>
      py_isspace c = false /\ py_isspace (last query c) = false /\
      match launch_error inp with
      | Some _ => events r = [] /\ outcome r = Returned failed_skill
      | None =>
          events r =
            [BrowserOpened
               ((if str_in (u "ютуб") text_lower || str_in (u "youtube") text_lower
                 then u "https://www.youtube.com/results?search_query="
                 else u "https://www.google.com/search?q=") ++ query)] /\
          exists sr, outcome r = Returned sr /\
                     success sr = true /\ should_continue sr = true
      end
  end.
Proof.
  intros text_lower query r. subst r.
  split; [apply skill_web_after |].
  unfold _skill_web. fold text_lower. fold query.
  destruct query as [|c rest] eqn:Hquery.
  - split; [reflexivity |]. eexists. repeat split.
  - destruct (@strip_ends _ _ _ Hquery) as [Hfirst Hlast].
    split; [exact Hfirst |]. split; [exact Hlast |].
    unfold try_except, bind, launch.
    destruct (launch_error inp) as [failure |]; cbn [outcome after events raise emit ret].
    + split; reflexivity.
    + split.
      * destruct (str_in (u "ютуб") text_lower || str_in (u "youtube") text_lower);
          reflexivity.
      * eexists. repeat split.
Qed.

End WebSkill.

(** * Configuration and context *)

Lemma dict_get_set_other {V} (k k' : pystr) (v : V) (d : pydict V) :
  k <> k' -> dict_get k' (dict_set k v d) = dict_get k' d.
Proof.
  intros Hne. induction d as [|[k0 v0] d IH]; simpl.
  - destruct (str_eqb k k') eqn:E; [apply str_eqb_true in E; congruence | reflexivity].
  - destruct (str_eqb k0 k) eqn:E; simpl.
    + apply str_eqb_true in E. subst k0.
      destruct (str_eqb k k') eqn:E'; [apply str_eqb_true in E'; congruence | reflexivity].
    + now rewrite IH.
Qed.

Lemma dict_set_keys {V} (k : pystr) (v : V) (d : pydict V) :
  dict_keys (dict_set k v d) = dict_keys d ++ (if dict_has k d then [] else [k]).
Proof.
  unfold dict_has, dict_keys. induction d as [|[k0 v0] d IH]; simpl; [reflexivity |].
  destruct (str_eqb k0 k); simpl.
  - now rewrite app_nil_r.
  - now rewrite IH.
Qed.

Lemma dict_has_in {V} (k : pystr) (d : pydict V) :
  dict_has k d = false <-> ~ In k (dict_keys d).
Proof.
  unfold dict_has. rewrite <- dict_get_none_keys.
  destruct (dict_get k d); split; congruence.
Qed.

Lemma dict_get_in_keys {V} (k : pystr) (v : V) (d : pydict V) :
  dict_get k d = Some v -> In k (dict_keys d).
Proof.
  intros Hget. destruct (in_dec (list_eq_dec N.eq_dec) k (dict_keys d)) as [Hin | Hout];
    trivial.
  apply dict_get_none_keys in Hout. congruence.
Qed.

Section DeepUpdate.
Variable A : Type.

(** The loop inside [merged] is [_deep_update]. *)
Lemma merged_dictionaries (inner source : pydict (Json A)) :
  merged (JDict inner) (Some (JDict source)) = JDict (_deep_update source inner).
Proof.
  simpl. f_equal. revert source.
  induction inner as [|[key v] inner IH]; intros source; [reflexivity |].
  simpl. apply IH.
Qed.

Lemma merged_cases (value : Json A) (old : option (Json A)) :
  merged value old =
  match value, old with
  | JDict inner, Some (JDict source) => JDict (_deep_update source inner)
  | _, _ => value
  end.
Proof.
  destruct value as [a | inner]; [reflexivity |].
  destruct old as [[a | source] |]; try reflexivity.
  apply merged_dictionaries.
Qed.

Lemma deep_update_untouched (update source : pydict (Json A)) (key : pystr) :
  ~ In key (dict_keys update) ->
  dict_get key (_deep_update source update) = dict_get key source.
Proof.
  revert source. induction update as [|[k v] update IH]; intros source Hout;
    [reflexivity |].
  simpl in *. rewrite IH by tauto. apply dict_get_set_other. tauto.
Qed.

(** X14. What a key holds after [_deep_update]: a key that the update does
    not mention keeps the value of the source; a key that it mentions holds
    the merge of the two values when both are dictionaries and the value of
    the update in every other case (a dictionary replaced by a plain value,
    a plain value by a dictionary, a new key). *)
Theorem X14_deep_update_lookup (source update : pydict (Json A)) (key : pystr) :
  NoDup (dict_keys update) ->
  dict_get key (_deep_update source update) =
  match dict_get key update with
  | None => dict_get key source
  | Some value =>
      Some match value, dict_get key source with
           | JDict inner, Some (JDict old) => JDict (_deep_update old inner)
           | _, _ => value
           end
  end.
Proof.
  revert source. induction update as [|[k v] update IH]; intros source Hnodup;
    [reflexivity |].
  simpl in Hnodup. inversion Hnodup as [|? ? Hfresh Hrest]; subst.
  cbn [_deep_update dict_get].
  destruct (str_eqb k key) eqn:Hk.
  - apply str_eqb_true in Hk. subst k.
    rewrite deep_update_untouched by exact Hfresh.
    rewrite dict_get_set_same. now rewrite merged_cases.
  - apply str_eqb_false in Hk. rewrite IH by exact Hrest.
    now rewrite (dict_get_set_other _ _ Hk).
Qed.

(** Keys are never removed, and the keys of the source keep their places;
    the keys that are new come behind them. *)
Lemma deep_update_keys (update source : pydict (Json A)) :
  exists added,
    dict_keys (_deep_update source update) = dict_keys source ++ added /\
    forall k, In k added -> In k (dict_keys update) /\ ~ In k (dict_keys source).
Proof.
  revert source. induction update as [|[k v] update IH]; intros source.
  - exists []. split; [now rewrite app_nil_r | intros k []].
  - cbn [_deep_update].
    destruct (IH (dict_set k (merged v (dict_get k source)) source))
      as (added & Hkeys & Hadded).
    rewrite dict_set_keys in Hkeys.
    exists ((if dict_has k source then [] else [k]) ++ added).
    split; [now rewrite Hkeys, app_assoc |].
    intros k' Hin. apply in_app_or in Hin. destruct Hin as [Hin | Hin].
    + destruct (dict_has k source) eqn:Hhas; [destruct Hin |].
      destruct Hin as [<- | []]. split; [now left |].
      now apply dict_has_in.
    + destruct (Hadded k' Hin) as [Hupd Hnew]. split; [now right |].
      intros Hsrc. apply Hnew. rewrite dict_set_keys. apply in_or_app. now left.
Qed.

End DeepUpdate.

(** X15. Loading the configuration never loses a default. Without a file,
    with a file that cannot be read or parsed, or with a document that is
    not a dictionary, the defaults are returned as they are. With a
    dictionary the four sections of the defaults stay first and in their
    order, sections that the document does not mention keep their default
    value, and what the document adds comes behind. *)
Theorem X15_load_config_keeps_defaults (file : ConfigFile) :
  (forall user, file <> Parsed (JDict user)) /\ _load_config file = default_config_tree \/
  exists user added,
    file = Parsed (JDict user) /\
    dict_keys (_load_config file) =
      [u "mistral"; u "user"; u "assistant"; u "skills"] ++ added /\
    (forall k, In k added ->
       In k (dict_keys user) /\
       ~ In k [u "mistral"; u "user"; u "assistant"; u "skills"]) /\
    (forall k, ~ In k (dict_keys user) ->
       dict_get k (_load_config file) = dict_get k default_config_tree).
Proof.
  destruct file as [| | [a | user]];
    try (left; split; [intros user; discriminate | reflexivity]).
  right.
  destruct (deep_update_keys user default_config_tree) as (added & Hkeys & Hadded).
  exists user, added. split; [reflexivity |].
  split; [exact Hkeys |]. split; [exact Hadded |].
  intros k Hout. now apply deep_update_untouched.
Qed.

Section ContextUpdate.
Context `{PyBuiltins}.

Lemma location_is_not_last_active : u "last_active" <> u "location".
Proof. vm_compute. discriminate. Qed.

(** X16. [update_context] stores the value under its key and the reading
    of the clock under [last_active], which a value given for
    [last_active] itself does not survive; the other keys and the rest of
    the assistant are unchanged. After a non-empty text is stored as the
    location, the system prompt of the next request carries the line of the
    location with that text. *)
Theorem X16_update_context_then_prompt (key : pystr) (value : CtxVal) (now : pystr)
    (s : Assistant) :
  let r := update_context key value now s in
  outcome r = Returned tt /\ events r = [] /\
  conversation_history (after r) = conversation_history s /\
  mistral_client (after r) = mistral_client s /\
  dict_get (u "last_active") (context (after r)) = Some (CStr now) /\
  (key <> u "last_active" -> dict_get key (context (after r)) = Some value) /\
  (forall k, k <> key -> k <> u "last_active" ->
     dict_get k (context (after r)) = dict_get k (context s)) /\
  (forall city, key = u "location" -> value = CStr city -> city <> [] ->
     exists before behind,
       _create_system_prompt (Some (context (after r))) =
       before ++ (u "Местоположение: " ++ city ++ [10%N]) ++ behind).
Proof.
  intros r. subst r. unfold update_context, bind, get, put.
  cbn [outcome after events with_context context conversation_history mistral_client app].
  split; [reflexivity |]. split; [reflexivity |].
  split; [reflexivity |]. split; [reflexivity |].
  split; [apply dict_get_set_same |].
  assert (Hkey : key <> u "last_active" ->
                 dict_get key
                   (dict_set (u "last_active") (CStr now) (dict_set key value (context s)))
                 = Some value).
  { intros Hne. rewrite dict_get_set_other by congruence. apply dict_get_set_same. }
  split; [exact Hkey |].
  split.
  { intros k Hk Hactive. rewrite !dict_get_set_other by congruence. reflexivity. }
  intros city -> -> Hcity.
  specialize (Hkey (fun E => location_is_not_last_active (eq_sym E))).
  remember (dict_set (u "last_active") (CStr now)
              (dict_set (u "location") (CStr city) (context s))) as ctx eqn:Hctx.
  clear Hctx. destruct ctx as [|entry ctx]; [discriminate Hkey |].
  unfold _create_system_prompt. cbv beta zeta. rewrite Hkey.
  destruct city as [|c city]; [congruence |].
  cbn [ctx_truthy ctx_text].
  match goal with
  | |- exists before behind, ?a ++ (?b ++ ?m ++ ?c) ++ ?d = _ =>
      exists (a ++ b), (c ++ d)
  end.
  now rewrite <- !app_assoc.
Qed.

End ContextUpdate.

(** * What the skills hand to the operating system *)

Lemma performs_ret {A} P (a : A) : performs_only P (ret a).
Proof. intros s. constructor. Qed.

Lemma performs_get P : performs_only P get.
Proof. intros s. constructor. Qed.

Lemma performs_put P s' : performs_only P (put s').
Proof. intros s. constructor. Qed.

Lemma performs_raise {A} P text : performs_only P (raise (A := A) text).
Proof. intros s. constructor. Qed.

Lemma performs_emit (P : Event -> Prop) e : P e -> performs_only P (emit e).
Proof. intros He s. simpl. auto. Qed.

Lemma performs_bind {A B} P (c : Cmd A) (k : A -> Cmd B) :
  performs_only P c -> (forall a, performs_only P (k a)) -> performs_only P (bind c k).
Proof.
  intros Hc Hk s. unfold bind. specialize (Hc s).
  destruct (c s) as [[a | text] s1 e1]; simpl in *; trivial.
  apply Forall_app. split; [exact Hc | apply Hk].
Qed.

Lemma performs_try {A} P (body : Cmd A) (handler : pystr -> Cmd A) :
  performs_only P body -> (forall text, performs_only P (handler text)) ->
  performs_only P (try_except body handler).
Proof.
  intros Hb Hh s. unfold try_except. specialize (Hb s).
  destruct (body s) as [[a | text] s1 e1]; simpl in *; trivial.
  apply Forall_app. split; [exact Hb | apply Hh].
Qed.

Lemma performs_launch (P : Event -> Prop) inp e : P e -> performs_only P (launch inp e).
Proof.
  intros He. unfold launch. destruct (launch_error inp).
  - apply performs_raise.
  - now apply performs_emit.
Qed.

Lemma performs_by_platform (P : Event -> Prop) inp windows darwin other :
  P windows -> P darwin -> P other ->
  performs_only P (by_platform inp windows darwin other).
Proof.
  intros Hw Hd Ho. unfold by_platform. apply performs_launch.
  now destruct (platform inp).
Qed.

Ltac fixed_command :=
  first [ exact I | reflexivity
        | unfold is_fixed_command, fixed_commands; cbn [In];
          repeat (first [left; reflexivity | right]) ].

Ltac performs :=
  repeat first
    [ apply performs_ret | apply performs_get | apply performs_put
    | apply performs_raise
    | apply performs_emit; solve [fixed_command]
    | apply performs_by_platform; solve [fixed_command]
    | apply performs_launch; solve [fixed_command]
    | apply performs_bind; [| intros ?]
    | apply performs_try; [| intros ?]
    | progress cbv beta zeta
    | match goal with
      | |- performs_only _ (if ?b then _ else _) => destruct b
      | |- performs_only _ (match ?x with _ => _ end) => destruct x
      end ].

Section FixedCommands.
Context `{PyBuiltins}.

Arguments _check_skills : simpl never.
Arguments compose_reply : simpl never.

Lemma check_skills_commands inp text :
  performs_only (is_fixed_command inp) (_check_skills inp text).
Proof.
  unfold _check_skills, _skill_time, _skill_weather, _skill_system,
    _skill_web, _skill_calculation, _skill_entertainment, _skill_note,
    _skill_reminder, _skill_clear_history.
  performs.
Qed.

Lemma model_events_are_no_commands inp (es : list Event) :
  forallb is_model_event es = true -> Forall (is_fixed_command inp) es.
Proof.
  induction es as [|e es IH]; simpl; [constructor |].
  intros Hall. apply andb_true_iff in Hall. destruct Hall as [He Hes].
  constructor; [now destruct e | now apply IH].
Qed.

(** X17. Whatever the command says, the only commands that a cycle hands
    to the operating system are the eight fixed ones, six constant texts
    and two built around the working directory, and the only file started
    is the working directory: no text of the user reaches [os.system], and
    nothing shuts the computer down. *)
Theorem X17_only_fixed_commands inp text a :
  Forall (is_fixed_command inp) (events (_process_command inp text a)) /\
  forall cmd, In (SystemCommand cmd) (events (_process_command inp text a)) ->
    In cmd (fixed_commands inp).
Proof.
  assert (Hall : Forall (is_fixed_command inp) (events (_process_command inp text a))).
  { pose proof (check_skills_commands inp text (entered inp text a)) as Hcmd.
    destruct (step_cases (_check_skills inp text) (entered inp text a))
      as [(sr & s2 & e2 & Hcheck) | (failure & s2 & e2 & Hcheck)].
    - destruct (compose_shape inp text sr s2)
        as (answer & md & s3 & e3 & Hcomp & _ & He3).
      pose proof (process_command_completed Hcheck Hcomp) as Hrun.
      unfold returns in Hrun, Hcheck. rewrite Hrun. rewrite Hcheck in Hcmd.
      cbn [events] in *.
      repeat (apply Forall_app; split); trivial.
      + repeat constructor.
      + now apply model_events_are_no_commands.
      + repeat constructor.
    - pose proof (process_command_aborted Hcheck) as Hrun.
      unfold returns in Hrun. unfold raises in Hcheck.
      rewrite Hrun. rewrite Hcheck in Hcmd. cbn [events] in *.
      repeat (apply Forall_app; split); trivial; repeat constructor. }
  split; [exact Hall |].
  intros cmd Hin. rewrite Forall_forall in Hall. exact (Hall _ Hin).
Qed.

(** X18. The weather skill never raises, leaves the assistant as it is and
    always lets the model continue. Without a weather credential (empty or
    the placeholder) it asks no service; with one it sends exactly one
    request. *)
Theorem X18_weather_skill_requests inp text s :
  let r := _skill_weather inp text s in
  let key := cfg_weather_key (config s) in
  after r = s /\
  (exists sr, outcome r = Returned sr /\ should_continue sr = true) /\
  (key = [] \/ key = u "your_openweather_api_key" -> events r = []) /\
  (key <> [] -> key <> u "your_openweather_api_key" ->
   exists url, events r = [WeatherRequested url]).
Proof.
  intros r key. subst r. split; [apply skill_weather_after |].
  unfold _skill_weather, bind, get. cbn [outcome after events app]. fold key.
  assert (Hdemo : (match key with
                   | [] => true
                   | _ :: _ => str_eqb key (u "your_openweather_api_key")
                   end) = true <->
                  (key = [] \/ key = u "your_openweather_api_key")).
  { destruct key as [|c k]; [intuition |]. rewrite str_eqb_true. intuition discriminate. }
  destruct (match key with
            | [] => true
            | _ :: _ => str_eqb key (u "your_openweather_api_key")
            end) eqn:Hmode.
  - assert (Hnone :
      forall st : Step SkillResult,
        events st = [] -> (exists sr, outcome st = Returned sr /\ should_continue sr = true) ->
        (exists sr, outcome st = Returned sr /\ should_continue sr = true) /\
        (key = [] \/ key = u "your_openweather_api_key" -> events st = []) /\
        (key <> [] -> key <> u "your_openweather_api_key" ->
         exists url, events st = [WeatherRequested url])).
    { intros st Hev Hout. split; [exact Hout |]. split; [auto |].
      intros Hne Hne'. destruct (proj1 Hdemo eq_refl); contradiction. }
    match goal with
    | |- context [match ?city with CStr _ => _ | CList _ => _ end] => destruct city
    end; (rewrite app_nil_r || idtac); apply Hnone; cbn [events outcome ret];
      try reflexivity; eexists; split; reflexivity.
  - assert (Hreal : ~ (key = [] \/ key = u "your_openweather_api_key")).
    { intros Hk. apply Hdemo in Hk. discriminate. }
    unfold emit. cbn [outcome after events app].
    assert (Hone :
      forall (url : pystr) (st : Step SkillResult),
        events st = [] -> (exists sr, outcome st = Returned sr /\ should_continue sr = true) ->
        (exists sr, outcome st = Returned sr /\ should_continue sr = true) /\
        (key = [] \/ key = u "your_openweather_api_key" ->
         WeatherRequested url :: events st = []) /\
        (key <> [] -> key <> u "your_openweather_api_key" ->
         exists url', WeatherRequested url :: events st = [WeatherRequested url'])).
    { intros url st Hev Hout. split; [exact Hout |]. split; [tauto |].
      intros _ _. exists url. now rewrite Hev. }
    destruct (weather_net inp) as [| code [body |]];
      [ | destruct (code =? 200)%Z | destruct (code =? 200)%Z ];
      apply Hone; cbn [events outcome ret]; try reflexivity;
      eexists; split; reflexivity.
Qed.

End FixedCommands.

(** * The answer of the service with status 200 *)

Section AnsweredCall.
Context `{PyBuiltins}.

(** X3. A call on an available client that misses the cache and is
    answered with status 200: with a choice, the reply is the stripped
    content of the first choice, the metadata name the model of the answer
    (the client's own when the answer names none) and the finish reason
    ("unknown" when absent), the token counter grows by the reported total
    (by 0 when none is reported), and the reply is in the cache under the
    key of the call; with no choice, the fixed message is returned and
    nothing is counted or stored; with a body that cannot be decoded, the
    exception text is returned and one error is counted. *)
Theorem X3_status_200_answer (c : Client) (x : Call) (body : JsonBody) :
  is_available c = true ->
  (1 <= cache_size c)%Z ->
  dict_get (_create_cache_key (messages_of x)) (response_cache c) = None ->
  call_net x = HttpResponse 200 body ->
  let r := call_on c x in
  let after := client_after r in
  length (sent r) = 1%nat /\
  match body with
  | BodyResult (first :: _) usage served_by =>
      reply r = strip (choice_content first) /\
      dict_get (u "model") (metadata r) =
        Some (MStr (match served_by with Some name => name | None => model c end)) /\
      dict_get (u "finish_reason") (metadata r) =
        Some (MStr (match finish_reason first with
                    | Some why => why
                    | None => u "unknown"
                    end)) /\
      tokens_used (stats after) =
        (tokens_used (stats c) +
         match usage with
         | Some counts =>
             match dict_get (u "total_tokens") counts with
             | Some total => total
             | None => 0
             end
         | None => 0
         end)%Z /\
      errors (stats after) = errors (stats c) /\
      dict_get (_create_cache_key (messages_of x)) (response_cache after) =
        Some (reply r)
  | BodyResult [] _ _ =>
      reply r = MSG_NO_ANSWER /\ metadata r = [] /\
      stats after = stats (count_request c) /\
      response_cache after = response_cache c
  | BodyInvalid text =>
      reply r = u "Внутренняя ошибка: " ++ text /\ metadata r = [] /\
      errors (stats after) = (errors (stats c) + 1)%Z /\
      tokens_used (stats after) = tokens_used (stats c) /\
      response_cache after = response_cache c
  end.
Proof.
  intros Hav Hsize Hmiss Hnet r after. subst after r. unfold is_available in Hav.
  unfold call_on, generate_response. rewrite Hav. cbn [negb]. cbv zeta.
  change (response_cache (count_request c)) with (response_cache c).
  unfold messages_of in *. rewrite Hmiss, Hnet.
  unfold handle_outcome. cbn [Z.eqb Pos.eqb].
  destruct body as [[|first rest] usage served_by | text].
  - repeat split.
  - match goal with |- context [_add_to_cache ?c1 ?k ?v] =>
      destruct (add_to_cache_spec c1 k v Hsize) as (c2 & Hadd & _ & _ & _);
      rewrite Hadd; pose proof (add_to_cache_stats _ _ _ Hadd) as Hstats;
      pose proof Hadd as Hshape
    end.
    cbn [reply metadata sent client_after].
    split; [reflexivity |]. split; [reflexivity |].
    split; [destruct served_by; reflexivity |].
    split; [destruct (finish_reason first); reflexivity |].
    rewrite Hstats.
    split; [destruct usage as [counts |]; cbn;
            [destruct (dict_get _ counts) |]; reflexivity |].
    split; [reflexivity |].
    unfold _add_to_cache in Hshape.
    destruct (cache_size _ <=? _)%Z.
    + destruct (response_cache _) as [|entry rest']; [discriminate |].
      injection Hshape as <-. cbn [response_cache with_cache].
      apply dict_get_set_same.
    + injection Hshape as <-. cbn [response_cache with_cache].
      apply dict_get_set_same.
  - repeat split.
Qed.

End AnsweredCall.

(** * The further properties on the scenarios *)

Lemma X10_witness_note_key :
  returns (_check_skills (H := B) calm note) (entered calm note fresh)
    note_result (entered calm note fresh) [] /\
  _create_cache_key
    (_prepare_messages (H := B) note (conversation_history (entered calm note fresh))
       (Some (context (entered calm note fresh)))) = key_of_text note.
Proof.
  assert (Hcheck : returns (_check_skills (H := B) calm note) (entered calm note fresh)
                     note_result (entered calm note fresh) [])
    by (vm_compute; reflexivity).
  assert (Hmore : should_continue note_result = true) by reflexivity.
  exact (conj Hcheck
           (proj2 (@X10_cycle_cache_key B calm note fresh _ _ _ Hcheck (or_intror Hmore)))).
Defined.

Lemma X11_witness_what_time :
  any_in kw_time (str_lower (PyBuiltins := B) (u "Который час?")) = true /\
  exists answer md,
    returns (_process_command (H := B) calm (u "Который час?")) fresh tt
      (finished calm answer (entered calm (u "Который час?") fresh))
      [StateChanged (state fresh) PROCESSING;
       ConversationUpdated (user_message_of calm (u "Который час?"));
       ConversationUpdated (assistant_message_of calm answer);
       AiResponded md;
       StateChanged PROCESSING IDLE].
Proof.
  assert (Htime : any_in kw_time (str_lower (PyBuiltins := B) (u "Который час?")) = true)
    by (vm_compute; reflexivity).
  destruct (@X11_time_skill_is_terminal B calm (u "Который час?") fresh Htime)
    as (answer & md & _ & _ & Hrun & _).
  exact (conj Htime (ex_intro _ answer (ex_intro _ md Hrun))).
Defined.

Lemma X12_witness_strict_evaluator :
  calculation (H := {| str_lower := Fixture.lower; str_capitalize := Fixture.capitalize;
                       str_of_list := Fixture.show_list;
                       py_eval := Fixture.eval_lookup Fixture.eval_table |})
    (u "посчитай 2+2") =
  calculation (H := {| str_lower := Fixture.lower; str_capitalize := Fixture.capitalize;
                       str_of_list := Fixture.show_list; py_eval := strict_eval |})
    (u "посчитай 2+2").
Proof.
  apply X12_eval_sees_allowed_characters_only.
  intros expression _ Hallowed. unfold strict_eval. rewrite Hallowed. reflexivity.
Defined.

Lemma X14_witness_user_document :
  NoDup (dict_keys user_document) /\
  dict_get (u "mistral") (_deep_update default_config_tree user_document) =
    Some (JDict [ (u "api_key", JAtom (SText valid_key));
                  (u "model", JAtom (SText (u "mistralai/mistral-7b-instruct:free"))) ]) /\
  dict_get (u "user") (_deep_update default_config_tree user_document) =
    Some (JAtom (SText (u "Анна"))).
Proof.
  assert (Hnodup : NoDup (dict_keys user_document)).
  { apply NoDup_cons; [| apply NoDup_cons; [intros [] | apply NoDup_nil]].
    vm_compute. intros [E | []]. discriminate E. }
  split; [exact Hnodup |].
  split.
  - rewrite (@X14_deep_update_lookup Setting default_config_tree user_document
               (u "mistral") Hnodup).
    vm_compute. reflexivity.
  - rewrite (@X14_deep_update_lookup Setting default_config_tree user_document
               (u "user") Hnodup).
    vm_compute. reflexivity.
Defined.

Lemma X3_witness_first_question :
  let r := call_on (H := B) online first_question in
  is_available online = true /\
  (1 <= cache_size online)%Z /\
  reply r = strip (u "A").
Proof.
  intros r.
  assert (Hav : is_available online = true) by (vm_compute; reflexivity).
  assert (Hsize : (1 <= cache_size online)%Z) by (cbn; lia).
  assert (Hmiss : dict_get (_create_cache_key (messages_of (H := B) first_question))
                    (response_cache online) = None) by (vm_compute; reflexivity).
  assert (Hnet : call_net first_question =
                 HttpResponse 200
                   (BodyResult
                      [{| choice_content := u "A"; finish_reason := Some (u "stop") |}]
                      (Some [(u "total_tokens", 12%Z)]) None)) by reflexivity.
  destruct (@X3_status_200_answer B online first_question _ Hav Hsize Hmiss Hnet)
    as (_ & Hreply & _).
  exact (conj Hav (conj Hsize Hreply)).
Defined.
